(** * Resumable batch collection engine: sharding, ledger scan, cursor
    pagination and the retry patcher.

    Shallow embedding of
      - data_collection/run_website_enrichment_batches.py
      - data_collection/extract_epo_publications_batch.py
      - data_collection/retry_epo_publications_errors.py

    Python values that travel through [json.loads] / [json.dumps] are the
    inductive type [Py.json]; Python dictionaries built by the scripts are
    [JDict] association lists in insertion order; the replacement dictionary
    of the patcher and the sets of ids are stdpp's [gmap] and [gset].
    Exceptions are values of [exn] carried by the result type [res]; file
    effects are threaded through an explicit [world]. *)

From Stdlib Require Import ZArith List Ascii String Bool Lia.
From stdpp Require Import base gmap sets list strings pretty sorting.

Open Scope string_scope.
Open Scope Z_scope.
Open Scope list_scope.

(** ** Python values *)

Module Py.

(** The image of [json.loads]: [None], booleans, integers, strings, lists
    and dictionaries (a dictionary lists every key once, in insertion
    order). Non-integral numbers are outside the model. *)
#[warnings="-register-all"]
Inductive json : Type :=
| JNull
| JBool (b : bool)
| JInt (z : Z)
| JStr (s : string)
| JList (l : list json)
| JDict (kv : list (string * json)).

(** Python truthiness ([if v], [not v], [a or b]). *)
Definition truthy (v : json) : bool :=
  match v with
  | JNull => false
  | JBool b => b
  | JInt z => negb (z =? 0)
  | JStr s => negb (String.eqb s "")
  | JList l => match l with [] => false | _ => true end
  | JDict kv => match kv with [] => false | _ => true end
  end.

(** [a or b]. *)
Definition por (a b : json) : json := if truthy a then a else b.

(** [d.get(k)] on the items of a dictionary; a missing key is [None]. *)
Fixpoint assoc (kv : list (string * json)) (k : string) : option json :=
  match kv with
  | [] => None
  | (k', v) :: kv' => if String.eqb k' k then Some v else assoc kv' k
  end.

Definition get (kv : list (string * json)) (k : string) : json :=
  match assoc kv k with Some v => v | None => JNull end.

(** [d.get(k, dflt)]: the default replaces a missing key only, a key
    stored with [None] yields [None]. *)
Definition get_default (kv : list (string * json)) (k : string) (dflt : json) : json :=
  match assoc kv k with Some v => v | None => dflt end.

(** [isinstance(v, int)]: [bool] is a subclass of [int]. *)
Definition as_int (v : json) : option Z :=
  match v with
  | JInt z => Some z
  | JBool b => Some (if b then 1 else 0)
  | _ => None
  end.

(** Characters removed by [str.strip()]: tab, line feed, vertical tab,
    form feed, carriage return, the four separators 28..31 and space. *)
Definition is_space (c : ascii) : bool :=
  let n := nat_of_ascii c in
  ((9 <=? n) && (n <=? 13) || (28 <=? n) && (n <=? 32))%nat.

Definition is_newline (c : ascii) : bool := Ascii.eqb c "010"%char.

Fixpoint lstrip_by (p : ascii -> bool) (s : string) : string :=
  match s with
  | EmptyString => EmptyString
  | String c s' => if p c then lstrip_by p s' else s
  end.

Fixpoint rstrip_by (p : ascii -> bool) (s : string) : string :=
  match s with
  | EmptyString => EmptyString
  | String c s' =>
      match rstrip_by p s' with
      | EmptyString => if p c then EmptyString else String c EmptyString
      | r => String c r
      end
  end.

(** [s.strip()] and [s.rstrip("\n")]. *)
Definition strip (s : string) : string := rstrip_by is_space (lstrip_by is_space s).
Definition rstrip_nl (s : string) : string := rstrip_by is_newline s.

(** [not line.strip()]. *)
Definition blank (line : string) : bool := String.eqb (strip line) "".

Definition nl : string := String "010"%char EmptyString.

(** [for line in f]: the lines of a text file, each with its line feed,
    the last one possibly without (the content is taken after Python's
    newline translation). *)
Fixpoint file_lines (content : string) : list string :=
  match content with
  | EmptyString => []
  | String c rest =>
      if is_newline c then String c EmptyString :: file_lines rest
      else match file_lines rest with
           | [] => [String c EmptyString]
           | l :: ls => String c l :: ls
           end
  end.

End Py.
Import Py.

(** ** Exceptions and results *)

Inductive exn : Type :=
| SystemExit (msg : string)
| JSONDecodeError (line : string)
| AttributeError (v : json)        (* [v.get]: [v] is not a dictionary *)
| TypeError (v : json)             (* [v] is not iterable *)
| RuntimeError (msg : string)
| PlaywrightError (msg : string)   (* [page.evaluate] raised *)
| FileNotFoundError (path : string)
| OSError (path : string).         (* a write was refused by the device *)

Inductive res (A : Type) : Type :=
| Ret (a : A)
| Raise (e : exn).
Arguments Ret {A} a.
Arguments Raise {A} e.

#[global] Instance res_ret : MRet res := fun A a => Ret a.
#[global] Instance res_bind : MBind res := fun A B k r =>
  match r with
  | Ret a => k a
  | Raise e => Raise e
  end.


(** ** Files and effects *)

(** What a run does to the outside: the file operations of the patcher and
    the subprocesses of the orchestrator (the only network activity of
    run_website_enrichment_batches.py happens inside them). *)
Inductive event : Type :=
| EvTruncate (path : string)                 (* open(path, "w") *)
| EvWrite (path : string) (chunk : string)   (* f.write(chunk) *)
| EvCopy (src dst : string)                  (* shutil.copy2 *)
| EvReplace (src dst : string)               (* os.replace *)
| EvSpawn (batch_limit : Z).                 (* subprocess.Popen of the enricher *)

(** The file system (path to content), the number of writes the device
    still accepts ([None]: no limit), and the events so far, oldest first. *)
Record world : Type := {
  files : gmap string string;
  quota : option nat;
  log : list event
}.

Definition M (A : Type) : Type := world -> res A * world.

#[global] Instance M_ret : MRet M := fun A a w => (Ret a, w).
#[global] Instance M_bind : MBind M := fun A B k c w =>
  match c w with
  | (Ret a, w') => k a w'
  | (Raise e, w') => (Raise e, w')
  end.

Definition emit (ev : event) (w : world) : world :=
  {| files := files w; quota := quota w; log := (log w ++ [ev])%list |}.

(** One unit of the write quota; [None] when the device is full. *)
Definition spend (w : world) : option world :=
  match quota w with
  | None => Some w
  | Some O => None
  | Some (S n) => Some {| files := files w; quota := Some n; log := log w |}
  end.

Definition set_file (path content : string) (w : world) : world :=
  {| files := <[path := content]> (files w); quota := quota w; log := log w |}.

(** [open(path, "r")] followed by the iteration over the lines. *)
Definition read_lines (path : string) : M (list string) := fun w =>
  match files w !! path with
  | Some content => (Ret (file_lines content), w)
  | None => (Raise (FileNotFoundError path), w)
  end.

(** [open(path, "w")]: the file is created or emptied at once. *)
Definition open_w (path : string) : M unit := fun w =>
  (Ret tt, emit (EvTruncate path) (set_file path "" w)).

(** [f.write(chunk)] on a file opened by [open_w]. *)
Definition write (path chunk : string) : M unit := fun w =>
  match spend w with
  | None => (Raise (OSError path), w)
  | Some w' =>
      (Ret tt, emit (EvWrite path chunk)
                 (set_file path (default "" (files w' !! path) +:+ chunk) w'))
  end.

(** [shutil.copy2(src, dst)]. *)
Definition copy2 (src dst : string) : M unit := fun w =>
  match files w !! src with
  | None => (Raise (FileNotFoundError src), w)
  | Some content =>
      match spend w with
      | None => (Raise (OSError dst), w)
      | Some w' => (Ret tt, emit (EvCopy src dst) (set_file dst content w'))
      end
  end.

(** [os.replace(src, dst)]: [dst] takes the content of [src], which
    disappears; one step. *)
Definition os_replace (src dst : string) : M unit := fun w =>
  match files w !! src with
  | None => (Raise (FileNotFoundError src), w)
  | Some content =>
      (Ret tt, emit (EvReplace src dst)
                 {| files := <[dst := content]> (delete src (files w));
                    quota := quota w; log := log w |})
  end.

Definition is_replace (ev : event) : bool :=
  match ev with EvReplace _ _ => true | _ => false end.

(** ** The page and its responses *)

(** What [page.evaluate] of the fetch snippet gives back: the object
    [{ok, status, data}] built from the HTTP response, the object
    [{ok: false, error}] of the snippet's catch clause, or an exception of
    the browser driver. *)
Inductive response : Type :=
| Http (ok : bool) (status : Z) (data : json)
| JsError (error : string)
| EvalRaises (msg : string).

(** The Python dictionary of a response that came back. *)
Definition result_dict (r : response) : res (list (string * json)) :=
  match r with
  | Http ok status data => Ret [("ok", JBool ok); ("status", JInt status); ("data", data)]
  | JsError error => Ret [("ok", JBool false); ("error", JStr error)]
  | EvalRaises msg => Raise (PlaywrightError msg)
  end.

(** The remote side is a script: the k-th call of [page.evaluate] receives
    the k-th response. Past the end of the script the page is closed and
    every call raises with this message. *)
Definition closed_page : string := "Target page, context or browser has been closed".

(** [v.get(k)] and [v.get(k, dflt)] on an arbitrary value. *)
Definition py_get (v : json) (k : string) : res json :=
  match v with
  | JDict kv => Ret (get kv k)
  | _ => Raise (AttributeError v)
  end.

Definition py_get_default (v : json) (k : string) (dflt : json) : res json :=
  match v with
  | JDict kv => Ret (get_default kv k dflt)
  | _ => Raise (AttributeError v)
  end.

(** The elements [list.extend(v)] appends: the items of a list, the
    characters of a string, the keys of a dictionary. *)
Definition py_iter (v : json) : res (list json) :=
  match v with
  | JList l => Ret l
  | JStr s => Ret (map (fun c => JStr (String c EmptyString)) (list_ascii_of_string s))
  | JDict kv => Ret (map (fun p => JStr (fst p)) kv)
  | _ => Raise (TypeError v)
  end.

(** [len(l)] as a Python integer. *)
Definition py_len (l : list json) : json := JInt (Z.of_nat (length l)).

(** One row of companies.csv after [pd.read_csv]: the id after
    [astype(str)], and the two url columns ([None] is pandas' NaN). *)
Record company_row : Type := {
  row_id : string;
  homepage_url : option string;
  homepage_url_raw : option string
}.

(** Command line of run_website_enrichment_batches.py (the fields the
    control flow reads). *)
Record orch_args : Type := {
  shard_index : Z;
  shard_total : Z;
  batch_size : Z;
  max_batches : Z;
  company_ids_file : option string;
  orch_output : string
}.

(** Command line of retry_epo_publications_errors.py, with the input and
    output paths already resolved (lines 231-238). *)
Record retry_args : Type := {
  input : string;
  output : string;
  inplace : bool;
  retry_batch_size : Z;
  max_attempts : Z
}.

(** ** Sample surroundings

    Concrete stand-ins for the library functions, used where a statement
    is evaluated on an explicit input. [Sample.loads] reads the handful of
    lines listed in [Sample.table] the way [json.loads] does and rejects
    every other text. *)
Module Sample.

Definition dq : string := String "034"%char EmptyString.
Definition q (s : string) : string := dq +:+ s +:+ dq.

(** [json.dumps] on values whose strings need no escape. *)
Fixpoint dumps (v : json) : string :=
  match v with
  | JNull => "null"
  | JBool true => "true"
  | JBool false => "false"
  | JInt z => pretty z
  | JStr s => q s
  | JList l =>
      "[" +:+ (fix items (l : list json) : string :=
                 match l with
                 | [] => EmptyString
                 | [x] => dumps x
                 | x :: l' => dumps x +:+ ", " +:+ items l'
                 end) l +:+ "]"
  | JDict kv =>
      "{" +:+ (fix items (kv : list (string * json)) : string :=
                 match kv with
                 | [] => EmptyString
                 | [(k, x)] => q k +:+ ": " +:+ dumps x
                 | (k, x) :: kv' => q k +:+ ": " +:+ dumps x +:+ ", " +:+ items kv'
                 end) kv +:+ "}"
  end.

Definition rec_a : json := JDict [("org_id", JStr "a"); ("publications", JList [])].
Definition rec_b : json :=
  JDict [("org_id", JStr "b"); ("error", JBool true); ("message", JStr "HTTP 500")].
Definition rec_c : json := JDict [("org_id", JStr "c"); ("publications", JList [])].
Definition rec_k : json := JDict [("company_id", JStr "k1"); ("ok", JBool true)].

Definition table : list json :=
  [rec_a; rec_b; rec_c; rec_k; JList []; JNull; JInt 5].

Fixpoint lookup_text (t : list json) (s : string) : option json :=
  match t with
  | [] => None
  | v :: t' => if String.eqb (dumps v) s then Some v else lookup_text t' s
  end.

Definition loads (line : string) : option json := lookup_text table (strip line).

Definition repr (v : json) : string := dumps v.

Definition exc_text (e : exn) : string :=
  match e with
  | AttributeError _ => "object has no attribute 'get'"
  | TypeError _ => "object is not iterable"
  | JSONDecodeError _ => "Expecting value: line 1 column 1 (char 0)"
  | _ => EmptyString
  end.

(** A stand-in for the hash: the sum of the character codes. *)
Fixpoint char_sum (s : string) : Z :=
  match s with
  | EmptyString => 0
  | String c s' => Z.of_nat (nat_of_ascii c) + char_sum s'
  end.

Definition utcnow (org_id : string) : string := "2026-01-06T00:00:00Z".

Definition enrich (limit : Z) (fs : gmap string string) : Z * gmap string string := (0, fs).

Definition line (v : json) : string := dumps v +:+ nl.

(** The ledger [a:ok, b:error, c:ok]; the same with a blank line in the
    middle; one whose last line was cut short by a crash; and one whose
    only line is a JSON list. *)
Definition ledger : string := line rec_a +:+ line rec_b +:+ line rec_c.
Definition cut_line : string := "{" +:+ q "org_id" +:+ ": " +:+ q "c" +:+ nl.
Definition ledger_cut : string := line rec_a +:+ cut_line.
Definition ledger_web : string := line rec_k +:+ cut_line.

(** The replacement of [b] after a successful retry. *)
Definition patch_b : gmap string (list (string * json)) :=
  {[ "b" := [("org_id", JStr "b"); ("publications", JList []);
             ("publication_count", JInt 0); ("retried", JBool true);
             ("retry_attempts", JInt 1)] ]}.

Definition world_of (path content : string) : world :=
  {| files := {[ path := content ]}; quota := None; log := [] |}.

Definition rows : list company_row :=
  [ {| row_id := "a"; homepage_url := Some "https://a.example"; homepage_url_raw := None |};
    {| row_id := "b"; homepage_url := None; homepage_url_raw := Some "b.example" |};
    {| row_id := "c"; homepage_url := None; homepage_url_raw := None |};
    {| row_id := "d"; homepage_url := Some "https://d.example"; homepage_url_raw := None |};
    {| row_id := "e"; homepage_url := Some "https://e.example"; homepage_url_raw := None |} ].

Definition orch (index total : Z) : orch_args :=
  {| shard_index := index; shard_total := total; batch_size := 500;
     max_batches := 0; company_ids_file := None; orch_output := "websites.jsonl" |}.

Definition retry (inp out : string) (in_place : bool) : retry_args :=
  {| input := inp; output := out; inplace := in_place;
     retry_batch_size := 50; max_attempts := 4 |}.

(** An ok response that carries a page. *)
Definition ok_page (pubs : list json) (token : string) : response :=
  Http true 200 (JDict [("publications", JList pubs); ("nextPageToken", JStr token)]).

End Sample.

Definition str_le (a b : string) : Prop := String.leb a b = true.
#[global] Instance str_le_dec : RelDecision str_le.
Proof. intros a b. unfold str_le. apply _. Defined.

(** [chunks(items, n)] of retry_epo_publications_errors.py: the slices
    [items[i : i + n]] for [i = 0, n, 2n, ...]. *)
Fixpoint chunks_from {A : Type} (fuel : nat) (items : list A) (n : nat) : list (list A) :=
  match fuel, items with
  | S fuel', _ :: _ => take n items :: chunks_from fuel' (drop n items) n
  | _, _ => []
  end.

Definition chunks {A : Type} (items : list A) (n : nat) : list (list A) :=
  chunks_from (length items) items n.

(** The value of [fetch_all_publications], as its docstring gives it:
    [{"ok": True, "publications", "total", "attempt"}] or
    [{"ok": False, "error", "http_status", "attempt"}]. *)
Inductive fetch_result : Type :=
| FetchOk (publications : list json) (total : option Z) (attempt : Z)
| FetchFailed (error : string) (http_status : json) (attempt : Z).

(** A request of a paginating function: the attempt it belongs to and the
    continuation token it carries. *)
Record request : Type := { req_attempt : Z; req_token : json }.

(** What one call of a paginating function did: its value, the requests it
    sent (oldest first) and the unread script. *)
Record run (A : Type) : Type := {
  value : A;
  sent : list request;
  unread : list response
}.
Arguments value {A} r.
Arguments sent {A} r.
Arguments unread {A} r.

Section Engine.

(** The library functions and the surroundings the scripts rely on. *)
Variable sha256_int : string -> Z.       (* int(hashlib.sha256(s).hexdigest(), 16) *)
Variable json_loads : string -> option json.   (* [None]: json.loads raises *)
Variable json_dumps : json -> string.    (* json.dumps(v, ensure_ascii=False) *)
Variable py_repr : json -> string.       (* str() of a list or a dictionary *)
Variable exc_text : exn -> string.       (* str(e) of an interpreter exception *)
Variable utcnow : string -> string.      (* the clock when a unit is finished *)
Variable enrich : Z -> gmap string string -> Z * gmap string string.
                                         (* enrich_websites.py --limit n: exit code, files *)

Definition loads (line : string) : res json :=
  match json_loads line with
  | Some v => Ret v
  | None => Raise (JSONDecodeError line)
  end.

(** The receiver of a [.get] call must be a dictionary. *)
Definition as_dict (v : json) : res (list (string * json)) :=
  match v with
  | JDict kv => Ret kv
  | _ => Raise (AttributeError v)
  end.

(** [str(v)]. *)
Definition py_str (v : json) : string :=
  match v with
  | JNull => "None"
  | JBool true => "True"
  | JBool false => "False"
  | JInt z => pretty z
  | JStr s => s
  | _ => py_repr v
  end.

(** [str(e)]: exceptions raised with a message print it. *)
Definition exc_str (e : exn) : string :=
  match e with
  | SystemExit msg | RuntimeError msg | PlaywrightError msg => msg
  | _ => exc_text e
  end.

(** *** run_website_enrichment_batches.py *)

Definition shard_for_company_id (company_id : string) (shard_total : Z) : Z :=
  let shard_total := Z.max 1 shard_total in
  sha256_int company_id mod shard_total.

(** Lines 72-78 of [load_eligible_company_ids]: the ids of the rows that
    have a url ([homepage_url.fillna(homepage_url_raw)] is not NaN). *)
Definition row_url (r : company_row) : option string :=
  match homepage_url r with
  | Some u => Some u
  | None => homepage_url_raw r
  end.

Definition eligible_ids (rows : list company_row) : list string :=
  map row_id (List.filter (fun r => bool_decide (is_Some (row_url r))) rows).

Definition load_eligible_company_ids
    (rows : list company_row) (shard_index shard_total : Z) : res (gset string) :=
  let urls := eligible_ids rows in
  let shard_total := Z.max 1 shard_total in
  if (shard_index <? 0) || (shard_total <=? shard_index) then
    Raise (SystemExit ("Invalid shard: --shard-index must be in [0, "
                         +:+ pretty (shard_total - 1) +:+ "]"))
  else
    let urls :=
      if 1 <? shard_total then
        List.filter (fun cid => shard_for_company_id cid shard_total =? shard_index) urls
      else urls in
    Ret (list_to_set urls).

Fixpoint read_done_loop (lines : list string) (done : gset string) : res (gset string) :=
  match lines with
  | [] => Ret done
  | line :: lines' =>
      if blank line then read_done_loop lines' done
      else
        match loads line with
        | Raise _ => read_done_loop lines' done          (* except Exception: continue *)
        | Ret obj =>
            kv ← as_dict obj;
            let cid := por (get kv "company_id") (get kv "id") in
            match cid with
            | JNull => read_done_loop lines' done
            | _ => read_done_loop lines' ({[py_str cid]} ∪ done)
            end
        end
  end.

Definition read_done_company_ids (fs : gmap string string) (out_path : string)
    : res (gset string) :=
  match fs !! out_path with
  | None => Ret ∅
  | Some content => read_done_loop (file_lines content) ∅
  end.

Definition read_company_ids_file (fs : gmap string string) (path : string)
    : res (gset string) :=
  match fs !! path with
  | None => Raise (FileNotFoundError path)
  | Some content =>
      Ret (list_to_set
             (List.filter (fun l => negb (String.eqb l ""))
                (map strip (file_lines content))))
  end.

Definition lift {A : Type} (r : res A) : M A := fun w => (r, w).

Definition run_one_batch (batch_limit : Z) : M unit := fun w =>
  let '(rc, fs) := enrich batch_limit (files w) in
  let w' := emit (EvSpawn batch_limit) {| files := fs; quota := quota w; log := log w |} in
  if rc =? 0 then (Ret tt, w')
  else (Raise (RuntimeError ("Batch failed with exit code " +:+ pretty rc)), w').

Definition scan_done (out_path : string) : M (gset string) := fun w =>
  (read_done_company_ids (files w) out_path, w).

(** The [while True] loop of [main]; [false] when [fuel] iterations were
    not enough. *)
Fixpoint batch_loop (fuel : nat) (a : orch_args) (eligible : gset string) (batch_num : Z)
    : M bool :=
  match fuel with
  | O => mret false
  | S fuel' =>
      done_ids ← scan_done (orch_output a);
      let total := Z.of_nat (size eligible) in
      let done := Z.of_nat (size (eligible ∩ done_ids)) in
      let remaining := total - done in
      if remaining <=? 0 then mret true
      else
        let batch_num := batch_num + 1 in
        if (0 <? max_batches a) && (max_batches a <? batch_num) then mret true
        else
          let batch_limit := Z.min (batch_size a) remaining in
          _ ← run_one_batch batch_limit;
          _ ← scan_done (orch_output a);
          batch_loop fuel' a eligible batch_num
  end.

(** [main] from the call of [load_eligible_company_ids] (line 255) on. *)
Definition orchestrator_main (fuel : nat) (a : orch_args) (rows : list company_row)
    : M bool :=
  eligible ← lift (load_eligible_company_ids rows (shard_index a) (shard_total a));
  eligible ← match company_ids_file a with
             | None => mret eligible
             | Some path =>
                 fun w =>
                   match files w !! path with
                   | None => (Raise (SystemExit ("Missing --company-ids-file: " +:+ path)), w)
                   | Some _ =>
                       lift (requested ← read_company_ids_file (files w) path;
                             Ret (eligible ∩ requested)) w
                   end
             end;
  _ ← scan_done (orch_output a);
  batch_loop fuel a eligible 0.

(** *** extract_epo_publications_batch.py *)

Definition done_id_of_line (line : string) : res (option string) :=
  obj ← loads line;
  kv ← as_dict obj;
  let org_id := get kv "org_id" in
  Ret (if truthy org_id then Some (py_str org_id) else None).

Fixpoint load_done_loop (lines : list string) (done_ids : gset string) : gset string :=
  match lines with
  | [] => done_ids
  | line :: lines' =>
      match done_id_of_line line with
      | Ret (Some org_id) => load_done_loop lines' ({[org_id]} ∪ done_ids)
      | Ret None => load_done_loop lines' done_ids
      | Raise _ => load_done_loop lines' done_ids       (* except: continue *)
      end
  end.

Definition load_done_ids (fs : gmap string string) (output_path : string) : gset string :=
  match fs !! output_path with
  | None => ∅
  | Some content => load_done_loop (file_lines content) ∅
  end.

(** The three dictionaries [fetch_publications_for_entity] returns. *)
Definition http_error_record (org_id : string) (name : json)
    (result : list (string * json)) : list (string * json) :=
  [("org_id", JStr org_id); ("name", name); ("error", JBool true);
   ("http_status", get result "status"); ("message", get result "error")].

Definition exception_record (org_id : string) (name : json) (e : exn)
    : list (string * json) :=
  [("org_id", JStr org_id); ("name", name); ("error", JBool true);
   ("message", JStr (exc_str e))].

Definition success_record (org_id : string) (name : json) (all_pubs : list json)
    : list (string * json) :=
  [("org_id", JStr org_id); ("name", name); ("publications", JList all_pubs);
   ("publication_count", py_len all_pubs)].

(** How the body of the [try] block ends. *)
Inductive page_step : Type :=
| StepReturn (record : list (string * json))
| StepBreak (all_pubs : list json)
| StepNext (all_pubs : list json) (token : json).

Definition page_try (org_id : string) (name : json) (all_pubs : list json)
    (r : response) : res page_step :=
  result ← result_dict r;
  if negb (truthy (get result "ok")) then
    Ret (StepReturn (http_error_record org_id name result))
  else
    let data := get_default result "data" (JDict []) in
    pubs ← py_get_default data "publications" (JList []);
    items ← py_iter pubs;
    let all_pubs := (all_pubs ++ items)%list in
    token ← py_get_default data "nextPageToken" (JStr "");
    if negb (truthy token) || negb (truthy pubs) then Ret (StepBreak all_pubs)
    else Ret (StepNext all_pubs token).

Fixpoint entity_pages (org_id : string) (name : json) (all_pubs : list json)
    (token : json) (script : list response) (reqs : list request)
    : run (list (string * json)) :=
  let reqs := (reqs ++ [{| req_attempt := 1; req_token := token |}])%list in
  match script with
  | [] =>
      {| value := exception_record org_id name (PlaywrightError closed_page);
         sent := reqs; unread := [] |}
  | r :: rest =>
      match page_try org_id name all_pubs r with
      | Raise e =>
          {| value := exception_record org_id name e; sent := reqs; unread := rest |}
      | Ret (StepReturn record) =>
          {| value := record; sent := reqs; unread := rest |}
      | Ret (StepBreak all_pubs) =>
          {| value := success_record org_id name all_pubs; sent := reqs; unread := rest |}
      | Ret (StepNext all_pubs token) =>
          entity_pages org_id name all_pubs token rest reqs
      end
  end.

Definition fetch_publications_for_entity (org_id : string) (name : json)
    (script : list response) : run (list (string * json)) :=
  entity_pages org_id name [] (JStr "") script [].

(** *** retry_epo_publications_errors.py *)

(** [str(obj.get("org_id") or "").strip()]. *)
Definition unit_id_of (kv : list (string * json)) : string :=
  strip (py_str (por (get kv "org_id") (JStr ""))).

Fixpoint load_error_loop (lines : list string) (out : gmap string (list (string * json)))
    : res (gmap string (list (string * json))) :=
  match lines with
  | [] => Ret out
  | line :: lines' =>
      if blank line then load_error_loop lines' out
      else
        obj ← loads line;
        kv ← as_dict obj;
        if negb (truthy (get kv "error")) then load_error_loop lines' out
        else
          let org_id := unit_id_of kv in
          if String.eqb org_id "" then load_error_loop lines' out
          else load_error_loop lines' (<[org_id := kv]> out)
  end.

Definition load_error_records (inp : string) : M (gmap string (list (string * json))) :=
  lines ← read_lines inp;
  lift (load_error_loop lines ∅).

(** How the body of the inner [while True] ends. *)
Inductive attempt_step : Type :=
| ABreak (pubs : list json) (total_from_api : option Z)
| ANext (pubs : list json) (total_from_api : option Z) (token : json).

(** [last_err] of the branch for a response that is not ok. *)
Definition fetch_failed_text (result : list (string * json)) (last_status : json) : string :=
  let e := get result "error" in
  if truthy e then py_str e
  else if truthy last_status then "HTTP " +:+ py_str last_status
  else "Fetch failed".

(** The inner loop's handling of a response that is ok (lines 138-148). *)
Definition attempt_body (pubs : list json) (total_from_api : option Z)
    (result : list (string * json)) : res attempt_step :=
  let data := por (get result "data") (JDict []) in
  total_from_api ← match total_from_api with
                   | None => t ← py_get data "total"; Ret (as_int t)
                   | Some _ => Ret total_from_api
                   end;
  b ← py_get data "publications";
  let batch := por b (JList []) in
  items ← (if truthy batch then py_iter batch else Ret []);
  let pubs := (pubs ++ items)%list in
  t ← py_get data "nextPageToken";
  let token := por t (JStr "") in
  if negb (truthy token) then Ret (ABreak pubs total_from_api)
  else Ret (ANext pubs total_from_api token).

(** One turn of the inner loop on a response; the second component is
    [last_status] afterwards. *)
Definition attempt_try (pubs : list json) (total_from_api : option Z)
    (last_status : json) (r : response) : res attempt_step * json :=
  match result_dict r with
  | Raise e => (Raise e, last_status)
  | Ret result =>
      if negb (truthy (get result "ok")) then
        let last_status := get result "status" in
        (Raise (RuntimeError (fetch_failed_text result last_status)), last_status)
      else (attempt_body pubs total_from_api result, last_status)
  end.

Fixpoint attempt_pages (attempt : Z) (token : json) (pubs : list json)
    (total_from_api : option Z) (last_status : json)
    (script : list response) (reqs : list request)
    : run (res (list json * option Z) * json) :=
  let reqs := (reqs ++ [{| req_attempt := attempt; req_token := token |}])%list in
  match script with
  | [] =>
      {| value := (Raise (PlaywrightError closed_page), last_status);
         sent := reqs; unread := [] |}
  | r :: rest =>
      match attempt_try pubs total_from_api last_status r with
      | (Raise e, last_status) =>
          {| value := (Raise e, last_status); sent := reqs; unread := rest |}
      | (Ret (ABreak pubs total_from_api), last_status) =>
          {| value := (Ret (pubs, total_from_api), last_status);
             sent := reqs; unread := rest |}
      | (Ret (ANext pubs total_from_api token), last_status) =>
          attempt_pages attempt token pubs total_from_api last_status rest reqs
      end
  end.

Definition or_fetch_failed (last_err : option string) : string :=
  match last_err with
  | Some s => if String.eqb s "" then "Fetch failed" else s
  | None => "Fetch failed"
  end.

(** The [for attempt in range(1, max_attempts + 1)] loop. *)
Fixpoint attempts_loop (max_attempts : Z) (range : list Z)
    (last_err : option string) (last_status : json)
    (script : list response) (reqs : list request) : run fetch_result :=
  match range with
  | [] =>
      {| value := FetchFailed (or_fetch_failed last_err) last_status max_attempts;
         sent := reqs; unread := script |}
  | attempt :: range' =>
      let r := attempt_pages attempt (JStr "") [] None last_status script reqs in
      match value r with
      | (Ret (pubs, total_from_api), _) =>
          {| value := FetchOk pubs total_from_api attempt;
             sent := sent r; unread := unread r |}
      | (Raise e, last_status) =>
          let last_err := Some (exc_str e) in
          if attempt <? max_attempts then
            attempts_loop max_attempts range' last_err last_status (unread r) (sent r)
          else
            {| value := FetchFailed (or_fetch_failed last_err) last_status attempt;
               sent := sent r; unread := unread r |}
      end
  end.

Definition fetch_all_publications (max_attempts : Z) (script : list response)
    : run fetch_result :=
  attempts_loop max_attempts (seqZ 1 max_attempts) None JNull script [].

(** Lines 289-330 of [main]: the replacement for one unit. *)
Definition py_or_int (n dflt : Z) : json := JInt (if n =? 0 then dflt else n).

Definition replacement_record (cli_max_attempts : Z) (org_id : string)
    (old : list (string * json)) (r : fetch_result) : list (string * json) :=
  let name := get old "name" in
  let role := get old "role" in
  let ts := JStr (utcnow org_id) in
  match r with
  | FetchOk pubs total attempt =>
      [("org_id", JStr org_id); ("name", name); ("role", role);
       ("total", match total with Some t => JInt t | None => py_len pubs end);
       ("publications", JList pubs); ("publication_count", py_len pubs);
       ("extraction_timestamp", ts); ("retried", JBool true);
       ("retry_attempts", py_or_int attempt 1)]
  | FetchFailed error http_status attempt =>
      [("org_id", JStr org_id); ("name", name); ("role", role);
       ("error", JBool true); ("http_status", http_status);
       ("message", por (JStr error) (por (get old "message") (JStr "Fetch failed")));
       ("extraction_timestamp", ts); ("retried", JBool true);
       ("retry_attempts", py_or_int attempt cli_max_attempts)]
  end.

Definition retry_unit (cli_max_attempts : Z) (org_id : string)
    (old : list (string * json)) (script : list response) : run (list (string * json)) :=
  let r := fetch_all_publications (Z.max 1 cli_max_attempts) script in
  {| value := replacement_record cli_max_attempts org_id old (value r);
     sent := sent r; unread := unread r |}.

(** The body of the loop of [rewrite_with_replacements] for a line that
    is not blank: the text written for it. *)
Definition rewrite_line (replacements : gmap string (list (string * json)))
    (line : string) : res string :=
  obj ← loads line;
  kv ← as_dict obj;
  let org_id := unit_id_of kv in
  match (if String.eqb org_id "" then None else replacements !! org_id) with
  | Some replacement => Ret (json_dumps (JDict replacement) +:+ nl)
  | None => Ret (rstrip_nl line +:+ nl)
  end.

Fixpoint rewrite_loop (out : string) (replacements : gmap string (list (string * json)))
    (lines : list string) : M unit :=
  match lines with
  | [] => mret tt
  | line :: lines' =>
      if blank line then rewrite_loop out replacements lines'
      else
        chunk ← lift (rewrite_line replacements line);
        _ ← write out chunk;
        rewrite_loop out replacements lines'
  end.

(** Both files are opened before the first line is read, so the lines
    are those of [inp] once [out] has been emptied. *)
Definition rewrite_with_replacements (inp out : string)
    (replacements : gmap string (list (string * json))) : M unit :=
  _ ← read_lines inp;
  _ ← open_w out;
  lines ← read_lines inp;
  rewrite_loop out replacements lines.

(** Lines 341-354 of [main]; [stamp] is [datetime.now()] formatted as
    %Y%m%d-%H%M%S. The value is [final_path]. *)
Definition write_patched (a : retry_args) (stamp : string)
    (replacements : gmap string (list (string * json))) : M string :=
  let inp := input a in
  let out := output a in
  let tmp_out := out +:+ ".tmp" in
  _ ← rewrite_with_replacements inp tmp_out replacements;
  if inplace a then
    let backup := inp +:+ ".bak-" +:+ stamp in
    _ ← copy2 inp backup;
    _ ← os_replace tmp_out inp;
    mret inp
  else
    _ ← os_replace tmp_out out;
    mret out.

(** The loops of lines 260-339: every failed id, in sorted order, batch
    by batch; [net] gives the script the remote side plays for an id. *)
Definition retry_batch (a : retry_args) (net : string -> list response)
    (error_recs replacements : gmap string (list (string * json)))
    (batch : list string) : gmap string (list (string * json)) :=
  foldl (fun replacements org_id =>
           let old := default [] (error_recs !! org_id) in
           <[org_id := value (retry_unit (max_attempts a) org_id old (net org_id))]>
             replacements)
        replacements batch.

(** [main] from line 240 on (the statistics printed at the end only read
    the patched file). *)
Definition retry_main (a : retry_args) (stamp : string) (net : string -> list response)
    : M unit :=
  error_recs ← load_error_records (input a);
  let error_ids := merge_sort str_le (map fst (map_to_list error_recs)) in
  match error_ids with
  | [] => mret tt
  | _ =>
      let replacements :=
        foldl (retry_batch a net error_recs) ∅
              (chunks error_ids (Z.to_nat (Z.max 1 (retry_batch_size a)))) in
      _ ← write_patched a stamp replacements;
      mret tt
  end.


(** ** Properties *)

(** Drops from the context what a statement does not mention. *)
Ltac forget_env :=
  try clear enrich; try clear utcnow; try clear exc_text; try clear py_repr;
  try clear json_dumps; try clear json_loads; try clear sha256_int.

(** *** Work partitioner *)

(** The eligible universe, and the selection of one shard: the set
    [load_eligible_company_ids] returns. *)
Definition universe (rows : list company_row) : gset string :=
  list_to_set (eligible_ids rows).

Definition select_shard (rows : list company_row) (i total : Z) : gset string :=
  match load_eligible_company_ids rows i total with
  | Ret ids => ids
  | Raise _ => ∅
  end.

Lemma shard_in_range (cid : string) (total : Z) :
  1 <= total -> 0 <= shard_for_company_id cid total < total.
Proof using Type.
  intros Ht. unfold shard_for_company_id.
  rewrite Z.max_r by lia. apply Z.mod_pos_bound. lia.
Qed.

Lemma load_eligible_valid (rows : list company_row) (i total : Z) :
  0 <= i < Z.max 1 total ->
  exists ids, load_eligible_company_ids rows i total = Ret ids
    /\ forall x, x ∈ ids <->
         x ∈ universe rows /\ shard_for_company_id x total = i.
Proof using Type.
  forget_env.
  intros Hi. unfold load_eligible_company_ids.
  assert (Hb : (i <? 0) || (Z.max 1 total <=? i) = false).
  { apply orb_false_iff. split; [apply Z.ltb_ge | apply Z.leb_gt]; lia. }
  rewrite Hb. eexists. split; [reflexivity|].
  intros x. unfold universe. rewrite !elem_of_list_to_set.
  destruct (1 <? Z.max 1 total) eqn:Hone.
  - rewrite (list_elem_of_In (List.filter _ _) x), filter_In, <- list_elem_of_In.
    unfold shard_for_company_id at 1.
    replace (Z.max 1 (Z.max 1 total)) with (Z.max 1 total) by lia.
    fold (shard_for_company_id x total).
    rewrite Z.eqb_eq. tauto.
  - apply Z.ltb_ge in Hone.
    assert (Hm : Z.max 1 total = 1) by lia.
    split; [|tauto]. intros Hx. split; [exact Hx|].
    unfold shard_for_company_id. rewrite Hm, Z.mod_1_r. lia.
Qed.

Lemma load_eligible_invalid (rows : list company_row) (i total : Z) :
  i < 0 \/ Z.max 1 total <= i ->
  exists msg, load_eligible_company_ids rows i total = Raise (SystemExit msg).
Proof using Type.
  intros Hi. unfold load_eligible_company_ids.
  assert (Hb : (i <? 0) || (Z.max 1 total <=? i) = true).
  { apply orb_true_iff. destruct Hi; [left; apply Z.ltb_lt | right; apply Z.leb_le]; lia. }
  rewrite Hb. eauto.
Qed.

Lemma select_shard_spec (rows : list company_row) (i total : Z) (x : string) :
  1 <= total -> 0 <= i < total ->
  x ∈ select_shard rows i total <->
  x ∈ universe rows /\ shard_for_company_id x total = i.
Proof using Type.
  intros Ht Hi.
  destruct (load_eligible_valid rows i total) as (ids & Hl & Hids); [lia|].
  unfold select_shard. rewrite Hl. apply Hids.
Qed.

(** C3. For every list of company rows and every [shard_total >= 1]:
    each shard index in [0, shard_total) is accepted and selects the
    eligible ids whose hash-based shard is that index; the union of the
    selections over all these indices is the whole eligible universe; and
    the selections of two distinct indices are disjoint. *)
Theorem shard_partition (rows : list company_row) (total : Z) :
  1 <= total ->
  (forall i, 0 <= i < total ->
     load_eligible_company_ids rows i total = Ret (select_shard rows i total))
  /\ (forall i x, 0 <= i < total ->
        x ∈ select_shard rows i total <->
        x ∈ universe rows /\ shard_for_company_id x total = i)
  /\ ⋃ ((fun i => select_shard rows i total) <$> seqZ 0 total) = universe rows
  /\ (forall i j, 0 <= i < total -> 0 <= j < total -> i <> j ->
        select_shard rows i total ## select_shard rows j total).
Proof using Type.
  forget_env.
  intros Ht. split; [|split; [|split]].
  - intros i Hi.
    destruct (load_eligible_valid rows i total) as (ids & Hl & _); [lia|].
    unfold select_shard. rewrite Hl. reflexivity.
  - intros i x Hi. apply select_shard_spec; lia.
  - apply set_eq. intros x. rewrite elem_of_union_list. split.
    + intros (X & HX & Hx). apply list_elem_of_fmap in HX as (i & -> & Hi).
      apply elem_of_seqZ in Hi.
      apply select_shard_spec in Hx; [tauto | lia | lia].
    + intros Hx. exists (select_shard rows (shard_for_company_id x total) total).
      pose proof (shard_in_range x total Ht) as Hr.
      split.
      * apply list_elem_of_fmap. eexists. split; [reflexivity|].
        apply elem_of_seqZ. lia.
      * apply select_shard_spec; [lia | lia | tauto].
  - intros i j Hi Hj Hne. apply elem_of_disjoint. intros x Hxi Hxj.
    apply select_shard_spec in Hxi; [|lia|lia].
    apply select_shard_spec in Hxj; [|lia|lia].
    lia.
Qed.

(** C8 (as amended). For every shard configuration with
    [shard_index < 0] or [shard_index >= max(1, shard_total)], the
    selection fails with SystemExit ("Invalid shard: ..."), and the
    orchestrator stops with that failure in the world it started in: no
    subprocess has been launched and no file was touched. *)
Theorem invalid_shard_fails_fast
    (fuel : nat) (a : orch_args) (rows : list company_row) (w : world) :
  shard_index a < 0 \/ Z.max 1 (shard_total a) <= shard_index a ->
  exists msg,
    load_eligible_company_ids rows (shard_index a) (shard_total a)
      = Raise (SystemExit msg)
    /\ orchestrator_main fuel a rows w = (Raise (SystemExit msg), w).
Proof using Type.
  intros Hbad.
  destruct (load_eligible_invalid rows _ _ Hbad) as (msg & Hl).
  exists msg. split; [exact Hl|].
  unfold orchestrator_main, mbind, M_bind, lift. rewrite Hl. reflexivity.
Qed.


(** *** Done-set scan *)

(** The unit id a ledger line records: the line parses to a dictionary
    and carries an id. For the publications ledger the id is the truthy
    [org_id]; for the website ledger it is [company_id or id], on a line
    that is not blank. Success and error records alike. *)
Definition epo_record_id (line x : string) : Prop :=
  exists kv, json_loads line = Some (JDict kv)
    /\ truthy (get kv "org_id") = true
    /\ x = py_str (get kv "org_id").



Lemma done_id_of_line_spec (line : string) :
  match done_id_of_line line with
  | Ret (Some org_id) => forall x, epo_record_id line x <-> x = org_id
  | _ => forall x, ~ epo_record_id line x
  end.
Proof using Type.
  unfold done_id_of_line, loads, epo_record_id.
  destruct (json_loads line) as [v|] eqn:Hj; simpl.
  2:{ intros x (kv & He & _). discriminate. }
  destruct v as [| | | | |kv]; simpl;
    try (intros x (kv' & He & _); discriminate).
  destruct (truthy (get kv "org_id")) eqn:Ht.
  - intros x. split.
    + intros (kv' & He & _ & ->). congruence.
    + intros ->. eauto.
  - intros x (kv' & He & Ht' & _).
    assert (kv' = kv) by congruence. subst. congruence.
Qed.

Lemma load_done_loop_spec (lines : list string) (done : gset string) (x : string) :
  x ∈ load_done_loop lines done <->
  x ∈ done \/ exists line, line ∈ lines /\ epo_record_id line x.
Proof using Type.
  revert done. induction lines as [|line lines IH]; intros done; simpl.
  - split; [auto|]. intros [H|(l & Hl & _)]; [exact H|]. inversion Hl.
  - pose proof (done_id_of_line_spec line) as Hline.
    destruct (done_id_of_line line) as [[org_id|]|e]; rewrite IH.
    + rewrite elem_of_union, elem_of_singleton. split.
      * intros [[->|H]|(l & Hl & He)]; auto.
        -- right. exists line. split; [apply elem_of_cons; auto|].
           apply Hline. reflexivity.
        -- right. exists l. split; [apply elem_of_cons; auto|exact He].
      * intros [H|(l & Hl & He)]; auto.
        apply elem_of_cons in Hl as [->|Hl]; [|eauto].
        apply Hline in He. auto.
    + split; intros [H|(l & Hl & He)]; auto.
      * right. exists l. split; [apply elem_of_cons; auto|exact He].
      * apply elem_of_cons in Hl as [->|Hl]; [|eauto].
        exfalso. exact (Hline _ He).
    + split; intros [H|(l & Hl & He)]; auto.
      * right. exists l. split; [apply elem_of_cons; auto|exact He].
      * apply elem_of_cons in Hl as [->|Hl]; [|eauto].
        exfalso. exact (Hline _ He).
Qed.




(** *** Strings and lines *)

Definition join (chunks : list string) : string := foldr String.append EmptyString chunks.

Fixpoint has_newline (s : string) : bool :=
  match s with
  | EmptyString => false
  | String c s' => is_newline c || has_newline s'
  end.

Lemma str_app_cons (x : ascii) (a b : string) : String x a +:+ b = String x (a +:+ b).
Proof using Type. reflexivity. Qed.


Lemma str_app_assoc (a b c : string) : (a +:+ b) +:+ c = a +:+ (b +:+ c).
Proof using Type.
  induction a as [|x a IH]; [reflexivity|].
  rewrite !str_app_cons. f_equal. exact IH.
Qed.

Lemma str_app_nil_r (a : string) : a +:+ EmptyString = a.
Proof using Type.
  induction a as [|x a IH]; [reflexivity|].
  rewrite str_app_cons. f_equal. exact IH.
Qed.





Lemma file_lines_terminated (body rest : string) :
  has_newline body = false ->
  file_lines ((body +:+ nl) +:+ rest) = (body +:+ nl) :: file_lines rest.
Proof using Type.
  induction body as [|c body IH]; [reflexivity|].
  intros H. simpl in H. apply orb_false_iff in H as [Hc Hb].
  rewrite !str_app_cons. simpl. rewrite Hc, (IH Hb). reflexivity.
Qed.

Lemma file_lines_join (chunks : list string) :
  Forall (fun c => exists body, has_newline body = false /\ c = body +:+ nl) chunks ->
  file_lines (join chunks) = chunks.
Proof using Type.
  induction 1 as [|c chunks (body & Hb & ->) _ IH]; [reflexivity|].
  change (join ((body +:+ nl) :: chunks)) with ((body +:+ nl) +:+ join chunks).
  rewrite file_lines_terminated by exact Hb. now rewrite IH.
Qed.


(** *** File effects of the rewrite *)

(** [w'] comes from [w] by emptying or appending to [out] only. *)
Definition only_writes (out : string) (w w' : world) : Prop :=
  (forall p, p <> out -> files w' !! p = files w !! p)
  /\ (is_Some (files w !! out) -> is_Some (files w' !! out))
  /\ exists evs, log w' = (log w ++ evs)%list
                 /\ Forall (fun ev => is_replace ev = false) evs.

Lemma only_writes_refl (out : string) (w : world) : only_writes out w w.
Proof using Type.
  split; [auto|]. split; [auto|]. exists []. split; [now rewrite app_nil_r|constructor].
Qed.

Lemma only_writes_trans (out : string) (w1 w2 w3 : world) :
  only_writes out w1 w2 -> only_writes out w2 w3 -> only_writes out w1 w3.
Proof using Type.
  intros (Hf1 & Hs1 & evs1 & Hl1 & He1) (Hf2 & Hs2 & evs2 & Hl2 & He2).
  split; [|split].
  - intros p Hp. rewrite Hf2, Hf1; auto.
  - auto.
  - exists (evs1 ++ evs2)%list. split.
    + rewrite Hl2, Hl1. now rewrite <- app_assoc.
    + apply Forall_app. auto.
Qed.

Lemma spend_files (w w' : world) :
  spend w = Some w' -> files w' = files w /\ log w' = log w.
Proof using Type.
  unfold spend. destruct (quota w) as [[|n]|]; intros H; inversion H; auto.
Qed.

Lemma write_only_writes (out chunk : string) (w : world) :
  only_writes out w (snd (write out chunk w)).
Proof using Type.
  unfold write, emit, set_file. destruct (spend w) as [w1|] eqn:Hs; unfold only_writes; simpl.
  - apply spend_files in Hs as [Hf Hl]. split; [|split].
    + intros p Hp. rewrite lookup_insert_ne by auto. now rewrite Hf.
    + intros _. rewrite lookup_insert_eq. eauto.
    + exists [EvWrite out chunk]. rewrite Hl. split; [reflexivity|].
      repeat constructor.
  - apply (only_writes_refl out w).
Qed.

Lemma open_w_only_writes (out : string) (w : world) :
  only_writes out w (snd (open_w out w)).
Proof using Type.
  unfold open_w, emit, set_file, only_writes; simpl. split; [|split].
  - intros p Hp. now rewrite lookup_insert_ne by auto.
  - intros _. rewrite lookup_insert_eq. eauto.
  - exists [EvTruncate out]. split; [reflexivity|]. repeat constructor.
Qed.

Lemma rewrite_loop_only_writes
    (out : string) (replacements : gmap string (list (string * json)))
    (lines : list string) (w : world) :
  only_writes out w (snd (rewrite_loop out replacements lines w)).
Proof using Type.
  revert w. induction lines as [|line lines IH]; intros w; simpl.
  - apply only_writes_refl.
  - destruct (blank line); [apply IH|].
    unfold mbind, M_bind, lift.
    destruct (rewrite_line replacements line) as [chunk|e]; simpl.
    2:{ apply only_writes_refl. }
    pose proof (write_only_writes out chunk w) as Hw.
    destruct (write out chunk w) as [[[]|e] w1]; simpl in *.
    + eapply only_writes_trans; [exact Hw|apply IH].
    + exact Hw.
Qed.

(** What the rewrite does once the input is known to exist. *)
Lemma rewrite_unfold
    (inp out : string) (replacements : gmap string (list (string * json)))
    (w : world) (content : string) :
  files w !! inp = Some content ->
  rewrite_with_replacements inp out replacements w =
  rewrite_loop out replacements
    (file_lines (if decide (out = inp) then EmptyString else content))
    (emit (EvTruncate out) (set_file out EmptyString w)).
Proof using Type.
  intros Hin. unfold rewrite_with_replacements, mbind, M_bind.
  unfold read_lines at 1. rewrite Hin. unfold open_w.
  unfold read_lines. simpl.
  destruct (decide (out = inp)) as [->|Hne].
  - now rewrite lookup_insert_eq.
  - rewrite lookup_insert_ne by auto. now rewrite Hin.
Qed.

Lemma rewrite_missing_input
    (inp out : string) (replacements : gmap string (list (string * json))) (w : world) :
  files w !! inp = None ->
  rewrite_with_replacements inp out replacements w = (Raise (FileNotFoundError inp), w).
Proof using Type.
  intros Hin. unfold rewrite_with_replacements, mbind, M_bind, read_lines.
  now rewrite Hin.
Qed.

Lemma rewrite_only_writes
    (inp out : string) (replacements : gmap string (list (string * json))) (w : world) :
  only_writes out w (snd (rewrite_with_replacements inp out replacements w)).
Proof using Type.
  destruct (files w !! inp) as [content|] eqn:Hin.
  - rewrite (rewrite_unfold _ _ _ _ _ Hin).
    eapply only_writes_trans; [|apply rewrite_loop_only_writes].
    apply (open_w_only_writes out w).
  - rewrite rewrite_missing_input by exact Hin. apply only_writes_refl.
Qed.


(** *** The rewrite of the patcher *)


Definition not_blank (line : string) : bool := negb (blank line).

(** Every line that is not blank parses to a JSON object. *)
Definition all_records (lines : list string) : Prop :=
  forall line, line ∈ lines -> blank line = false ->
    exists kv, json_loads line = Some (JDict kv).


Definition terminated (chunk : string) : Prop :=
  exists body, has_newline body = false /\ chunk = body +:+ nl.


Lemma write_unlimited (out chunk : string) (w : world) :
  quota w = None ->
  write out chunk w =
  (Ret tt, emit (EvWrite out chunk)
             (set_file out (default EmptyString (files w !! out) +:+ chunk) w)).
Proof using Type. intros Hq. unfold write, spend. now rewrite Hq. Qed.



(** *** Malformed ledgers *)




(** *** Temporary file, backup and rename *)




(** *** Pagination over well-formed pages *)









(** *** Attempts of the retry patcher *)

(** What the inner loop does with one response, read off a fresh turn:
    it goes on to the next page, stops with success, or raises. *)
Definition step_of (r : response) : res attempt_step :=
  fst (attempt_try [] None JNull r).

Definition continues (r : response) : Prop :=
  exists p t token, step_of r = Ret (ANext p t token).
Definition stops (r : response) : Prop :=
  exists p t, step_of r = Ret (ABreak p t).
Definition fails (r : response) : Prop :=
  exists e, step_of r = Raise e.

(** The items a response adds to the accumulator. *)
Definition page_items (r : response) : list json :=
  match step_of r with
  | Ret (ABreak p _) | Ret (ANext p _ _) => p
  | Raise _ => []
  end.

(** The responses one attempt reads: pages that go on, then a page that
    stops (success); or pages that go on, then a response that raises or
    the end of the script (failure). *)
Definition attempt_succeeded (seg : list response) : Prop :=
  exists pre last, seg = pre ++ [last] /\ Forall continues pre /\ stops last.

Definition attempt_failed (seg : list response) : Prop :=
  exists pre, Forall continues pre
    /\ (seg = pre \/ exists bad, fails bad /\ seg = pre ++ [bad]).

Lemma attempt_body_shift (pubs : list json) (total : option Z)
    (result : list (string * json)) :
  match attempt_body [] None result with
  | Raise _ => exists e, attempt_body pubs total result = Raise e
  | Ret (ABreak p _) =>
      exists t, attempt_body pubs total result = Ret (ABreak (pubs ++ p) t)
  | Ret (ANext p _ token) =>
      exists t, attempt_body pubs total result = Ret (ANext (pubs ++ p) t token)
  end.
Proof using Type.
  unfold attempt_body.
  destruct (por (get result "data") (JDict [])) as [| | | | |kv];
    try solve [destruct total; simpl; eauto].
  simpl.
  assert (Htot : exists t,
             match total with
             | Some _ => Ret total
             | None => Ret (as_int (get kv "total"))
             end = Ret t) by (destruct total; eauto).
  destruct Htot as (t & Htot). rewrite Htot. simpl.
  destruct (truthy (por (get kv "publications") (JList []))).
  - destruct (py_iter (por (get kv "publications") (JList []))) as [its|e]; simpl;
      [|eauto].
    destruct (truthy (por (get kv "nextPageToken") (JStr ""))); simpl; eauto.
  - simpl.
    destruct (truthy (por (get kv "nextPageToken") (JStr ""))); simpl; eauto.
Qed.

Lemma attempt_try_shift (pubs : list json) (total : option Z) (st : json)
    (r : response) :
  match step_of r with
  | Raise _ => exists e st', attempt_try pubs total st r = (Raise e, st')
  | Ret (ABreak p _) =>
      exists t, attempt_try pubs total st r = (Ret (ABreak (pubs ++ p) t), st)
  | Ret (ANext p _ token) =>
      exists t, attempt_try pubs total st r = (Ret (ANext (pubs ++ p) t token), st)
  end.
Proof using Type.
  unfold step_of, attempt_try.
  destruct (result_dict r) as [result|e]; simpl; [|eauto].
  destruct (negb (truthy (get result "ok"))); simpl; [eauto|].
  pose proof (attempt_body_shift pubs total result) as H.
  destruct (attempt_body [] None result) as [[p t|p t token]|e].
  - destruct H as (t' & ->). eauto.
  - destruct H as (t' & ->). eauto.
  - destruct H as (e' & ->). eauto.
Qed.

Lemma attempt_pages_spec (script : list response) :
  forall (k : Z) (token : json) (pubs : list json) (total : option Z)
         (st : json) (reqs : list request),
    let r := attempt_pages k token pubs total st script reqs in
    exists seg new,
      script = seg ++ unread r
      /\ sent r = reqs ++ new
      /\ Forall (fun q => req_attempt q = k) new
      /\ match fst (value r) with
         | Ret (pubs', _) =>
             attempt_succeeded seg /\ pubs' = pubs ++ concat (map page_items seg)
         | Raise _ => attempt_failed seg
         end.
Proof using Type.
  induction script as [|r0 rest IH]; intros k token pubs total st reqs; simpl.
  - exists [], [{| req_attempt := k; req_token := token |}].
    split; [reflexivity|]. split; [reflexivity|]. split; [repeat constructor|].
    exists []. split; [constructor|]. left. reflexivity.
  - pose proof (attempt_try_shift pubs total st r0) as Hshift.
    destruct (step_of r0) as [[p t|p t tok]|e] eqn:Hstep.
    + destruct Hshift as (t' & ->). simpl.
      exists [r0], [{| req_attempt := k; req_token := token |}].
      split; [reflexivity|]. split; [reflexivity|]. split; [repeat constructor|].
      split.
      * exists [], r0. split; [reflexivity|]. split; [constructor|].
        exists p, t. exact Hstep.
      * change (concat (map page_items [r0])) with (page_items r0 ++ []).
        unfold page_items. rewrite Hstep. now rewrite app_nil_r.
    + destruct Hshift as (t' & ->).
      destruct (IH k tok (pubs ++ p) t' st
                  (reqs ++ [{| req_attempt := k; req_token := token |}]))
        as (seg & new & Hscript & Hsent & Hnew & Hres).
      exists (r0 :: seg), ({| req_attempt := k; req_token := token |} :: new).
      split; [simpl; f_equal; exact Hscript|].
      split; [rewrite Hsent, <- app_assoc; reflexivity|].
      split; [constructor; [reflexivity|exact Hnew]|].
      assert (Hcont : continues r0) by (exists p, t, tok; exact Hstep).
      destruct (fst (value (attempt_pages k tok (pubs ++ p) t' st rest
                  (reqs ++ [{| req_attempt := k; req_token := token |}]))))
        as [[pubs' total']|e].
      * destruct Hres as ((pre & last & -> & Hpre & Hlast) & ->). split.
        -- exists (r0 :: pre), last. split; [reflexivity|]. split; [|exact Hlast].
           constructor; assumption.
        -- change (concat (map page_items (r0 :: pre ++ [last])))
             with (page_items r0 ++ concat (map page_items (pre ++ [last]))).
           assert (Hpi : page_items r0 = p) by (unfold page_items; now rewrite Hstep).
           rewrite Hpi, <- app_assoc. reflexivity.
      * destruct Hres as (pre & Hpre & Hseg).
        exists (r0 :: pre). split; [constructor; assumption|].
        destruct Hseg as [->|(bad & Hbad & ->)]; [left; reflexivity|].
        right. exists bad. split; [exact Hbad|reflexivity].
    + destruct Hshift as (e' & st' & ->). simpl.
      exists [r0], [{| req_attempt := k; req_token := token |}].
      split; [reflexivity|]. split; [reflexivity|]. split; [repeat constructor|].
      exists []. split; [constructor|]. right. exists r0.
      split; [exists e; exact Hstep|reflexivity].
Qed.

(** The attempts of one call, one segment of the script each: either all
    of them failed, or all but the last failed and the last succeeded and
    alone supplies the publications. *)
Inductive attempts_outcome (segs : list (list response)) : fetch_result -> Prop :=
| AllFailed (error : string) (http_status : json) (attempt : Z) :
    Forall attempt_failed segs ->
    attempts_outcome segs (FetchFailed error http_status attempt)
| LastSucceeded (failed : list (list response)) (last : list response)
    (total : option Z) (attempt : Z) :
    segs = failed ++ [last] ->
    Forall attempt_failed failed ->
    attempt_succeeded last ->
    attempts_outcome segs (FetchOk (concat (map page_items last)) total attempt).

Definition attempt_of (r : fetch_result) : Z :=
  match r with
  | FetchOk _ _ attempt | FetchFailed _ _ attempt => attempt
  end.

Lemma attempts_loop_spec (n : nat) :
  forall (j m : Z) (last_err : option string) (st : json)
         (script : list response) (reqs : list request),
    j + Z.of_nat n = m + 1 ->
    let r := attempts_loop m (seqZ j (Z.of_nat n)) last_err st script reqs in
    exists segs new,
      script = concat segs ++ unread r
      /\ sent r = reqs ++ new
      /\ Forall (fun q => j <= req_attempt q <= m) new
      /\ attempts_outcome segs (value r)
      /\ Z.of_nat (length segs) = attempt_of (value r) - j + 1
      /\ match value r with
         | FetchOk _ _ k => j <= k <= m
         | FetchFailed _ _ k => k = m
         end.
Proof using Type.
  induction n as [|n IH]; intros j m last_err st script reqs Hjm.
  - simpl. exists [], []. simpl.
    split; [reflexivity|]. split; [now rewrite app_nil_r|]. split; [constructor|].
    split; [constructor; constructor|]. split; lia.
  - rewrite seqZ_cons by lia.
    replace (Z.pred (Z.of_nat (S n))) with (Z.of_nat n) by lia.
    cbn [attempts_loop].
    destruct (attempt_pages_spec script j (JStr "") [] None st reqs)
      as (seg & new & Hscript & Hsent & Hnew & Hres).
    destruct (value (attempt_pages j (JStr "") [] None st script reqs))
      as [[[pubs total]|e] st'] eqn:Hval; simpl in Hres.
    + destruct Hres as (Hok & ->). simpl.
      exists [seg], new. simpl. rewrite app_nil_r.
      split; [exact Hscript|]. split; [exact Hsent|].
      split; [eapply Forall_impl; [exact Hnew|]; simpl; intros q ->; lia|].
      split; [apply (LastSucceeded [seg] [] seg); auto|].
      split; lia.
    + destruct (j <? m) eqn:Hlt.
      * apply Z.ltb_lt in Hlt.
        destruct (IH (Z.succ j) m (Some (exc_str e)) st'
                    (unread (attempt_pages j (JStr "") [] None st script reqs))
                    (sent (attempt_pages j (JStr "") [] None st script reqs)))
          as (segs & new' & Hscript' & Hsent' & Hnew' & Hout & Hlen & Hk); [lia|].
        exists (seg :: segs), (new ++ new').
        split; [simpl; rewrite <- app_assoc, <- Hscript'; exact Hscript|].
        split; [rewrite Hsent', Hsent, <- app_assoc; reflexivity|].
        split.
        { apply Forall_app. split.
          - eapply Forall_impl; [exact Hnew|]. simpl. intros q ->. lia.
          - eapply Forall_impl; [exact Hnew'|]. simpl. intros q Hq. lia. }
        split.
        { destruct Hout as [err hs k Hall|failed last tot k Hsegs Hfailed Hlast].
          - constructor. constructor; assumption.
          - apply (LastSucceeded _ (seg :: failed) last); [|constructor|]; auto.
            rewrite Hsegs. reflexivity. }
        split.
        { simpl length. rewrite Nat2Z.inj_succ. lia. }
        destruct (value (attempts_loop m (seqZ (Z.succ j) (Z.of_nat n))
                    (Some (exc_str e)) st'
                    (unread (attempt_pages j (JStr "") [] None st script reqs))
                    (sent (attempt_pages j (JStr "") [] None st script reqs))));
          lia.
      * apply Z.ltb_ge in Hlt. simpl.
        exists [seg], new. simpl. rewrite app_nil_r.
        split; [exact Hscript|]. split; [exact Hsent|].
        split; [eapply Forall_impl; [exact Hnew|]; simpl; intros q ->; lia|].
        split; [constructor; constructor; [exact Hres|constructor]|].
        split; lia.
Qed.





(** C7 (the code at the failing input). When the first call comes back
    with an HTTP failure, the record the paginator returns has its error
    flag set and the status, and a [message] that is [None]. *)
Theorem http_failure_record_has_no_text
    (org_id : string) (name : json) (status : Z) (data : json) (rest : list response) :
  value (fetch_publications_for_entity org_id name (Http false status data :: rest)) =
  [("org_id", JStr org_id); ("name", name); ("error", JBool true);
   ("http_status", JInt status); ("message", JNull)].
Proof using Type. reflexivity. Qed.

(** *** The retry of one unit *)

Lemma fetch_all_spec (m : Z) (script : list response) :
  1 <= m ->
  let r := fetch_all_publications m script in
  exists segs,
    script = concat segs ++ unread r
    /\ Forall (fun q => 1 <= req_attempt q <= m) (sent r)
    /\ attempts_outcome segs (value r)
    /\ Z.of_nat (length segs) = attempt_of (value r)
    /\ match value r with
       | FetchOk _ _ k => 1 <= k <= m
       | FetchFailed _ _ k => k = m
       end.
Proof using Type.
  intros Hm. unfold fetch_all_publications.
  destruct (attempts_loop_spec (Z.to_nat m) 1 m None JNull script [])
    as (segs & new & Hscript & Hsent & Hnew & Hout & Hlen & Hk); [lia|].
  rewrite Z2Nat.id in * by lia.
  exists segs. split; [exact Hscript|]. split; [rewrite Hsent; exact Hnew|].
  split; [exact Hout|]. split; [lia|exact Hk].
Qed.

(** C10. The publications of a successful result are the items of the
    responses the successful attempt read, and of no other: the script is
    the responses of the failed attempts, then those of the successful
    one, then what was left unread. A failed result comes from failed
    attempts only. *)
Theorem success_from_last_attempt_only (m : Z) (script : list response) :
  let r := fetch_all_publications m script in
  match value r with
  | FetchOk pubs _ _ =>
      exists failed last,
        script = concat failed ++ last ++ unread r
        /\ Forall attempt_failed failed
        /\ attempt_succeeded last
        /\ pubs = concat (map page_items last)
  | FetchFailed _ _ _ =>
      exists segs, script = concat segs ++ unread r /\ Forall attempt_failed segs
  end.
Proof using Type.
  intros r. subst r.
  destruct (Z_lt_le_dec m 1) as [Hm|Hm].
  - unfold fetch_all_publications. rewrite seqZ_nil by lia. simpl.
    exists []. split; [reflexivity|constructor].
  - destruct (fetch_all_spec m script Hm) as (segs & Hscript & _ & Hout & _).
    destruct Hout as [err hs k Hall|failed last tot k Hsegs Hfailed Hlast].
    + exists segs. auto.
    + exists failed, last. subst segs.
      rewrite concat_app in Hscript. simpl in Hscript.
      rewrite app_nil_r, <- app_assoc in Hscript. auto.
Qed.


(** *** The records of the batch paginator *)

Section EntityRecords.

Variables (org_id : string) (name : json).

(** What the loop does with one response, read off a fresh turn. *)
Definition goes_on (r : response) : Prop :=
  exists p token, page_try org_id name [] r = Ret (StepNext p token).
Definition ends (r : response) : Prop :=
  exists p, page_try org_id name [] r = Ret (StepBreak p).
Definition refused (r : response) : Prop :=
  (exists record, page_try org_id name [] r = Ret (StepReturn record))
  \/ (exists e, page_try org_id name [] r = Raise e).

Lemma page_try_shift (acc : list json) (r : response) :
  match page_try org_id name [] r with
  | Ret (StepReturn record) =>
      page_try org_id name acc r = Ret (StepReturn record)
      /\ get record "error" = JBool true /\ is_Some (assoc record "message")
  | Ret (StepBreak p) => page_try org_id name acc r = Ret (StepBreak (acc ++ p))
  | Ret (StepNext p token) =>
      page_try org_id name acc r = Ret (StepNext (acc ++ p) token)
  | Raise e => page_try org_id name acc r = Raise e
  end.
Proof using Type.
  unfold page_try.
  destruct (result_dict r) as [result|e]; simpl; [|reflexivity].
  destruct (negb (truthy (get result "ok"))); simpl.
  { split; [reflexivity|]. split; [reflexivity|]. eauto. }
  destruct (py_get_default (get_default result "data" (JDict [])) "publications"
              (JList [])) as [pubs|e]; simpl; [|reflexivity].
  destruct (py_iter pubs) as [its|e]; simpl; [|reflexivity].
  destruct (py_get_default (get_default result "data" (JDict [])) "nextPageToken"
              (JStr "")) as [token|e]; simpl; [|reflexivity].
  destruct (negb (truthy token) || negb (truthy pubs)); reflexivity.
Qed.

(** The record is a success record, without [error] and [message],
    exactly when every response read was handled and the last one ended
    the pagination; it is a failed record, with [error = True] and a
    [message] key, exactly when the last response read was refused (not
    ok, or raising while it was handled) or the script had ended. *)
Lemma entity_record_cases (script : list response) :
  forall (acc : list json) (token : json) (reqs : list request),
    let r := entity_pages org_id name acc token script reqs in
    exists seg,
      script = seg ++ unread r
      /\ ((assoc (value r) "error" = None /\ assoc (value r) "message" = None
           /\ exists pre last, seg = pre ++ [last] /\ Forall goes_on pre /\ ends last)
          \/ (get (value r) "error" = JBool true
              /\ is_Some (assoc (value r) "message")
              /\ exists pre, Forall goes_on pre
                   /\ (seg = pre \/ exists bad, refused bad /\ seg = pre ++ [bad]))).
Proof using Type.
  induction script as [|r0 rest IH]; intros acc token reqs; simpl.
  - exists []. split; [reflexivity|]. right.
    split; [reflexivity|]. split; [eauto|].
    exists []. split; [constructor|]. left. reflexivity.
  - pose proof (page_try_shift acc r0) as Hshift.
    destruct (page_try org_id name [] r0) as [[record|p|p tok]|e] eqn:Hstep.
    + destruct Hshift as (-> & Herr & Hmsg). simpl.
      exists [r0]. split; [reflexivity|]. right.
      split; [exact Herr|]. split; [exact Hmsg|].
      exists []. split; [constructor|]. right. exists r0.
      split; [left; eauto|reflexivity].
    + rewrite Hshift. simpl.
      exists [r0]. split; [reflexivity|]. left.
      split; [reflexivity|]. split; [reflexivity|].
      exists [], r0. split; [reflexivity|]. split; [constructor|].
      exists p. exact Hstep.
    + rewrite Hshift.
      destruct (IH (acc ++ p) tok (reqs ++ [{| req_attempt := 1; req_token := token |}]))
        as (seg & Hscript & Hcases).
      exists (r0 :: seg). split; [simpl; f_equal; exact Hscript|].
      assert (Hgo : goes_on r0) by (exists p, tok; exact Hstep).
      destruct Hcases as [(He & Hm & pre & last & -> & Hpre & Hlast)
                         |(He & Hm & pre & Hpre & Hseg)].
      * left. split; [exact He|]. split; [exact Hm|].
        exists (r0 :: pre), last. split; [reflexivity|].
        split; [constructor; assumption|exact Hlast].
      * right. split; [exact He|]. split; [exact Hm|].
        exists (r0 :: pre). split; [constructor; assumption|].
        destruct Hseg as [->|(bad & Hbad & ->)]; [left; reflexivity|].
        right. exists bad. split; [exact Hbad|reflexivity].
    + rewrite Hshift. simpl.
      exists [r0]. split; [reflexivity|]. right.
      split; [reflexivity|]. split; [eauto|].
      exists []. split; [constructor|]. right. exists r0.
      split; [right; eauto|reflexivity].
Qed.

End EntityRecords.


(** ** Further properties of the three scripts *)

(** *** Slices *)

Lemma chunks_from_concat {A : Type} (fuel : nat) (items : list A) (n : nat) :
  (0 < n)%nat -> (length items <= fuel)%nat ->
  concat (chunks_from fuel items n) = items.
Proof using Type.
  forget_env. intros Hn. revert items.
  induction fuel as [|fuel IH]; intros items Hlen.
  - destruct items; [reflexivity|simpl in Hlen; lia].
  - destruct items as [|x items]; [reflexivity|].
    cbn [chunks_from concat]. rewrite IH.
    + apply take_drop.
    + rewrite length_drop. simpl in *. lia.
Qed.

Lemma chunks_from_sizes {A : Type} (fuel : nat) (items : list A) (n : nat) :
  (0 < n)%nat -> (length items <= fuel)%nat ->
  Forall (fun c => (0 < length c <= n)%nat) (chunks_from fuel items n)
  /\ forall i c, chunks_from fuel items n !! i = Some c ->
       (S i < length (chunks_from fuel items n))%nat -> length c = n.
Proof using Type.
  forget_env. intros Hn. revert items.
  induction fuel as [|fuel IH]; intros items Hlen.
  - destruct items; simpl; (split; [constructor|intros i c H; destruct i; discriminate]).
  - destruct items as [|x items].
    { simpl. split; [constructor|intros i c H; destruct i; discriminate]. }
    cbn [chunks_from].
    destruct (IH (drop n (x :: items))) as (Hall & Hfull).
    { rewrite length_drop. simpl in *. lia. }
    split.
    + constructor; [|exact Hall]. rewrite length_take. simpl. lia.
    + intros i c Hi Hlast. destruct i as [|i].
      * simpl in Hi. inversion Hi; subst. rewrite length_take.
        destruct (chunks_from fuel (drop n (x :: items)) n) as [|c' cs] eqn:Hcs;
          [simpl in Hlast; lia|].
        assert (Hd : drop n (x :: items) <> []).
        { intros Hd. rewrite Hd in Hcs. destruct fuel; discriminate. }
        assert (n < length (x :: items))%nat.
        { destruct (le_lt_dec (length (x :: items)) n) as [Hle|Hlt]; [|exact Hlt].
          exfalso. apply Hd. apply drop_ge. exact Hle. }
        lia.
      * simpl in Hi, Hlast. apply (Hfull i c Hi). lia.
Qed.

Lemma chunks_concat {A : Type} (items : list A) (n : nat) :
  (0 < n)%nat -> concat (chunks items n) = items.
Proof using Type.
  forget_env. intros Hn. unfold chunks. apply chunks_from_concat; [exact Hn|lia].
Qed.

(** X1. [chunks(items, n)] with a positive [n] cuts the list without losing
    or reordering anything: the slices put end to end are the list, no
    slice is empty or longer than [n], and every slice but the last has
    exactly [n] items. *)
Theorem chunks_partition {A : Type} (items : list A) (n : nat) :
  (0 < n)%nat ->
  concat (chunks items n) = items
  /\ Forall (fun c => (0 < length c <= n)%nat) (chunks items n)
  /\ forall i c, chunks items n !! i = Some c ->
       (S i < length (chunks items n))%nat -> length c = n.
Proof using Type.
  forget_env. intros Hn. split; [apply chunks_concat; exact Hn|].
  unfold chunks. apply chunks_from_sizes; [exact Hn|lia].
Qed.

(** *** Lines of a file *)

Lemma file_lines_nil (content : string) : file_lines content = [] -> content = EmptyString.
Proof using Type.
  forget_env. destruct content as [|c rest]; [reflexivity|]. simpl.
  destruct (is_newline c); [discriminate|].
  destruct (file_lines rest); discriminate.
Qed.

Lemma join_file_lines (content : string) : join (file_lines content) = content.
Proof using Type.
  forget_env. induction content as [|c rest IH]; [reflexivity|]. simpl.
  destruct (is_newline c).
  - change (join (String c EmptyString :: file_lines rest))
      with (String c EmptyString +:+ join (file_lines rest)).
    rewrite IH. reflexivity.
  - destruct (file_lines rest) as [|l ls] eqn:Hl.
    + apply file_lines_nil in Hl. subst. reflexivity.
    + change (join (String c l :: ls)) with (String c l +:+ join ls).
      rewrite str_app_cons. f_equal. exact IH.
Qed.

Lemma file_lines_join_app (chunks : list string) (more : string) :
  Forall terminated chunks ->
  file_lines (join chunks +:+ more) = chunks ++ file_lines more.
Proof using Type.
  forget_env. induction 1 as [|c chunks (body & Hb & ->) _ IH]; [reflexivity|].
  change (join ((body +:+ nl) :: chunks)) with ((body +:+ nl) +:+ join chunks).
  rewrite str_app_assoc, file_lines_terminated by exact Hb.
  rewrite IH. reflexivity.
Qed.

(** A content that is empty or ends with a line feed. *)
Definition closed_content (content : string) : Prop :=
  Forall terminated (file_lines content).

Lemma file_lines_app (content more : string) :
  closed_content content ->
  file_lines (content +:+ more) = file_lines content ++ file_lines more.
Proof using Type.
  forget_env. intros Hc.
  rewrite <- (join_file_lines content) at 1.
  apply file_lines_join_app. exact Hc.
Qed.


(** *** The done-set scan and appended records *)

Lemma load_done_loop_app (l1 l2 : list string) (done : gset string) :
  load_done_loop (l1 ++ l2) done = load_done_loop l2 (load_done_loop l1 done).
Proof using Type.
  revert done. induction l1 as [|line l1 IH]; intros done; [reflexivity|].
  simpl. destruct (done_id_of_line line) as [[org_id|]|e]; apply IH.
Qed.

Lemma load_done_loop_union (lines : list string) (done : gset string) :
  load_done_loop lines done = done ∪ load_done_loop lines ∅.
Proof using Type.
  apply set_eq. intros x. rewrite elem_of_union, !load_done_loop_spec.
  split.
  - intros [H|H]; auto.
  - intros [H|[H|H]]; auto. set_solver.
Qed.


(** *** Patching with nothing to replace *)




(** *** The error records of a ledger *)

(** [line] is an error record of unit [k] with fields [kv]: the line a
    retry is asked for. *)
Definition error_line (line k : string) (kv : list (string * json)) : Prop :=
  blank line = false /\ json_loads line = Some (JDict kv)
  /\ truthy (get kv "error") = true /\ unit_id_of kv = k /\ k <> EmptyString.

Definition no_error_line (lines : list string) (k : string) : Prop :=
  forall l kv, l ∈ lines -> ~ error_line l k kv.

(** [kv] is read from the last error record of [k] in [lines]. *)
Definition last_error_line (lines : list string) (k : string)
    (kv : list (string * json)) : Prop :=
  exists pre line post,
    lines = (pre ++ line :: post)%list /\ error_line line k kv /\ no_error_line post k.

Lemma last_error_line_cons (line : string) (lines : list string) (k : string)
    (kv : list (string * json)) :
  last_error_line (line :: lines) k kv
  <-> last_error_line lines k kv \/ (error_line line k kv /\ no_error_line lines k).
Proof using Type.
  split.
  - intros (pre & l & post & Heq & Hl & Hpost). destruct pre as [|p pre]; simpl in Heq.
    + inversion Heq; subst. right. auto.
    + inversion Heq; subst. left. exists pre, l, post. auto.
  - intros [(pre & l & post & -> & Hl & Hpost)|(Hl & Hpost)].
    + exists (line :: pre), l, post. auto.
    + exists [], line, lines. auto.
Qed.

Lemma no_error_line_cons (line : string) (lines : list string) (k : string) :
  no_error_line (line :: lines) k
  <-> (forall kv, ~ error_line line k kv) /\ no_error_line lines k.
Proof using Type.
  unfold no_error_line. split.
  - intros H. split.
    + intros kv. apply H. apply list_elem_of_here.
    + intros l kv Hin. apply H. apply list_elem_of_further. exact Hin.
  - intros (Hh & Ht) l kv Hin. apply elem_of_cons in Hin as [->|Hin]; auto.
Qed.

Lemma load_error_loop_skip (line : string) (lines : list string)
    (out m : gmap string (list (string * json))) :
  (forall k kv, ~ error_line line k kv) ->
  (forall k kv, m !! k = Some kv
     <-> last_error_line lines k kv \/ (out !! k = Some kv /\ no_error_line lines k)) ->
  forall k kv, m !! k = Some kv
     <-> last_error_line (line :: lines) k kv
         \/ (out !! k = Some kv /\ no_error_line (line :: lines) k).
Proof using Type.
  intros Hskip IH k kv. rewrite IH, last_error_line_cons, no_error_line_cons.
  pose proof (Hskip k kv) as Hk. pose proof (Hskip k) as Hk'.
  clear -Hk Hk'. tauto.
Qed.

Lemma load_error_loop_spec (lines : list string) :
  all_records lines ->
  forall out, exists m,
    load_error_loop lines out = Ret m
    /\ forall k kv, m !! k = Some kv
         <-> last_error_line lines k kv \/ (out !! k = Some kv /\ no_error_line lines k).
Proof using Type.
  induction lines as [|line lines IH]; intros Hrec out.
  - exists out. split; [reflexivity|]. intros k kv. split.
    + intros H. right. split; [exact H|]. intros l kv' Hin. inversion Hin.
    + intros [(pre & l & post & Heq & _)|[H _]]; [|exact H].
      destruct pre; discriminate.
  - assert (Hrec' : all_records lines).
    { intros l Hin. apply Hrec. apply list_elem_of_further. exact Hin. }
    specialize (IH Hrec'). simpl.
    destruct (blank line) eqn:Hb.
    { destruct (IH out) as (m & Hrun & Hm). exists m. split; [exact Hrun|].
      apply load_error_loop_skip; [|exact Hm].
      intros k kv (Hb' & _). congruence. }
    destruct (Hrec line (list_elem_of_here _ _) Hb) as (kvh & Hj).
    unfold loads. rewrite Hj. simpl.
    destruct (truthy (get kvh "error")) eqn:Herr; simpl.
    2:{ destruct (IH out) as (m & Hrun & Hm). exists m. split; [exact Hrun|].
        apply load_error_loop_skip; [|exact Hm].
        intros k kv (_ & Hj' & Ht & _). congruence. }
    destruct (String.eqb (unit_id_of kvh) EmptyString) eqn:Hid.
    { apply String.eqb_eq in Hid.
      destruct (IH out) as (m & Hrun & Hm). exists m. split; [exact Hrun|].
      apply load_error_loop_skip; [|exact Hm].
      intros k kv (_ & Hj' & _ & Hu & Hne). congruence. }
    apply String.eqb_neq in Hid.
    destruct (IH (<[unit_id_of kvh := kvh]> out)) as (m & Hrun & Hm).
    exists m. split; [exact Hrun|].
    assert (Hhead : error_line line (unit_id_of kvh) kvh).
    { repeat split; auto. }
    intros k kv. rewrite Hm, last_error_line_cons, no_error_line_cons.
    destruct (decide (k = unit_id_of kvh)) as [->|Hne].
    + rewrite lookup_insert_eq. split.
      * intros [H|[H Hno]]; [auto|]. inversion H; subst. auto.
      * intros [[H|[(_ & Hj' & _) Hno]]|(_ & Hno & _)].
        -- auto.
        -- right. split; [|exact Hno]. congruence.
        -- exfalso. exact (Hno kvh Hhead).
    + rewrite lookup_insert_ne by auto. split.
      * intros [H|[H Hno]]; [auto|]. right. split; [exact H|]. split; [|exact Hno].
        intros kv' (_ & Hj' & _ & Hu & _). congruence.
      * intros [[H|[(_ & Hj' & _ & Hu & _) _]]|(H & _ & Hno)]; [auto|congruence|auto].
Qed.


(** *** The replacements of a retry run *)





(** X6. A ledger of JSON objects without any error record is left alone:
    [main] returns at once, and no file is created, emptied or renamed. *)
Theorem retry_without_errors_is_noop
    (a : retry_args) (stamp : string) (net : string -> list response)
    (w : world) (content : string) :
  files w !! input a = Some content ->
  all_records (file_lines content) ->
  (forall k, no_error_line (file_lines content) k) ->
  retry_main a stamp net w = (Ret tt, w).
Proof using Type.
  intros Hin Hrec Hnone.
  unfold retry_main, load_error_records, mbind, M_bind, read_lines, lift.
  rewrite Hin. destruct (load_error_loop_spec _ Hrec ∅) as (m & Hrun & Hm).
  rewrite Hrun.
  assert (Hempty : m = ∅).
  { apply map_empty. intros k. destruct (m !! k) as [kv|] eqn:Hk; [|reflexivity].
    exfalso. apply Hm in Hk as [(pre & l & post & Heq & Hl & _)|[Hk _]].
    - apply (Hnone k l kv); [|exact Hl]. rewrite Heq.
      apply elem_of_app. right. apply list_elem_of_here.
    - rewrite lookup_empty in Hk. discriminate. }
  subst m. rewrite map_to_list_empty. reflexivity.
Qed.

Lemma os_replace_others (src dst p : string) (w : world) :
  p <> src -> p <> dst -> files (snd (os_replace src dst w)) !! p = files w !! p.
Proof using Type.
  intros Hs Hd. unfold os_replace.
  destruct (files w !! src) as [c|]; [|reflexivity].
  simpl. rewrite lookup_insert_ne, lookup_delete_ne by auto. reflexivity.
Qed.

Lemma copy2_others (src dst p : string) (w : world) :
  p <> dst -> files (snd (copy2 src dst w)) !! p = files w !! p.
Proof using Type.
  intros Hd. unfold copy2.
  destruct (files w !! src) as [c|]; [|reflexivity].
  unfold spend. destruct (quota w) as [[|n]|]; simpl; try reflexivity;
    rewrite lookup_insert_ne by auto; reflexivity.
Qed.

Lemma write_patched_others (a : retry_args) (stamp : string)
    (replacements : gmap string (list (string * json))) (w : world) (p : string) :
  p <> output a +:+ ".tmp" ->
  p <> (if inplace a then input a else output a) ->
  (inplace a = true -> p <> input a +:+ ".bak-" +:+ stamp) ->
  files (snd (write_patched a stamp replacements w)) !! p = files w !! p.
Proof using Type.
  intros Htmp Hfinal Hbak. unfold write_patched, mbind, M_bind.
  pose proof (rewrite_only_writes (input a) (output a +:+ ".tmp") replacements w)
    as (Hfiles & _).
  destruct (rewrite_with_replacements (input a) (output a +:+ ".tmp") replacements w)
    as [[[]|e] w1]; simpl in Hfiles; [|simpl; auto].
  rewrite <- (Hfiles p Htmp).
  destruct (inplace a).
  - pose proof (copy2_others (input a) (input a +:+ ".bak-" +:+ stamp) p w1
                  (Hbak eq_refl)) as Hc.
    destruct (copy2 (input a) (input a +:+ ".bak-" +:+ stamp) w1) as [[[]|e] w2];
      simpl in Hc; [|simpl; exact Hc].
    rewrite <- Hc.
    pose proof (os_replace_others (output a +:+ ".tmp") (input a) p w2 Htmp Hfinal) as Hr.
    destruct (os_replace (output a +:+ ".tmp") (input a) w2) as [[[]|e] w3];
      simpl in *; exact Hr.
  - pose proof (os_replace_others (output a +:+ ".tmp") (output a) p w1 Htmp Hfinal) as Hr.
    destruct (os_replace (output a +:+ ".tmp") (output a) w1) as [[[]|e] w3];
      simpl in *; exact Hr.
Qed.

(** X7. Whatever the ledger holds and however the run ends, [main]
    touches three paths at most: the temporary file [<output>.tmp], the
    final path (the input with --inplace, the output otherwise) and, with
    --inplace, the timestamped backup. Every other file is what it was;
    in particular the input is never changed without --inplace when the
    output and its temporary file are other paths. *)
Theorem retry_touches_only_its_files
    (a : retry_args) (stamp : string) (net : string -> list response)
    (w : world) (p : string) :
  p <> output a +:+ ".tmp" ->
  p <> (if inplace a then input a else output a) ->
  (inplace a = true -> p <> input a +:+ ".bak-" +:+ stamp) ->
  files (snd (retry_main a stamp net w)) !! p = files w !! p.
Proof using Type.
  intros Htmp Hfinal Hbak.
  unfold retry_main, load_error_records, mbind, M_bind, read_lines, lift.
  destruct (files w !! input a) as [content|]; [|reflexivity].
  destruct (load_error_loop (file_lines content) ∅) as [recs|e]; [|reflexivity].
  destruct (merge_sort str_le (map fst (map_to_list recs))) as [|k ids] eqn:Hids;
    [reflexivity|].
  pose proof (write_patched_others a stamp
                (foldl (retry_batch a net recs) ∅
                   (chunks (k :: ids) (Z.to_nat (Z.max 1 (retry_batch_size a)))))
                w p Htmp Hfinal Hbak) as Hw.
  destruct (write_patched a stamp _ w) as [[f|e] w1]; simpl in *; exact Hw.
Qed.

(** *** The error text of a failed retry *)

Lemma or_fetch_failed_nonempty (last_err : option string) :
  or_fetch_failed last_err <> EmptyString.
Proof using Type.
  unfold or_fetch_failed. destruct last_err as [s|]; [|discriminate].
  destruct (String.eqb s EmptyString) eqn:Hs; [discriminate|].
  apply String.eqb_neq. exact Hs.
Qed.

Lemma attempts_loop_error_nonempty (m : Z) (range : list Z) :
  forall (last_err : option string) (st : json) (script : list response)
         (reqs : list request),
    match value (attempts_loop m range last_err st script reqs) with
    | FetchOk _ _ _ => True
    | FetchFailed e _ _ => e <> EmptyString
    end.
Proof using Type.
  induction range as [|attempt range IH]; intros last_err st script reqs; simpl.
  - apply or_fetch_failed_nonempty.
  - destruct (value (attempt_pages attempt (JStr EmptyString) [] None st script reqs))
      as [[[pubs total]|e] st']; simpl; [exact I|].
    destruct (attempt <? m); [apply IH|].
    apply (or_fetch_failed_nonempty (Some (exc_str e))).
Qed.

(** X8. A retry that fails always says why: the failure result of
    [fetch_all_publications] has a non-empty error text, and the
    replacement record built from it has exactly that text as [message],
    so the old record's message and the literal fallback are never used. *)
Theorem retry_failure_has_text
    (m cli_max_attempts : Z) (org_id : string) (old : list (string * json))
    (script : list response) :
  match value (fetch_all_publications m script) with
  | FetchOk _ _ _ => True
  | FetchFailed e st k =>
      e <> EmptyString
      /\ get (replacement_record cli_max_attempts org_id old (FetchFailed e st k)) "message"
         = JStr e
  end.
Proof using Type.
  unfold fetch_all_publications.
  pose proof (attempts_loop_error_nonempty m (seqZ 1 m) None JNull script []) as H.
  destruct (value (attempts_loop m (seqZ 1 m) None JNull script [])) as [|e st k];
    [exact I|].
  split; [exact H|]. unfold replacement_record, get, por, truthy. simpl.
  destruct e; [contradiction|reflexivity].
Qed.

(** *** The statistics of a ledger: [verify_publications_file] *)

(** The counters of the loop (lines 188-206 of
    retry_epo_publications_errors.py). *)
Record verify_acc : Type := {
  acc_lines : Z;
  acc_parsed : Z;
  acc_org_ids : list string;
  acc_error_count : Z;
  acc_missing_pubs_key : Z
}.

Fixpoint verify_loop (lines : list string) (s : verify_acc) : res verify_acc :=
  match lines with
  | [] => Ret s
  | line :: lines' =>
      if blank line then verify_loop lines' s
      else
        obj ← loads line;
        kv ← as_dict obj;
        let oid := get kv "org_id" in
        verify_loop lines'
          {| acc_lines := acc_lines s + 1;
             acc_parsed := acc_parsed s + 1;
             acc_org_ids := match oid with
                            | JNull => acc_org_ids s
                            | _ => (acc_org_ids s ++ [py_str oid])%list
                            end;
             acc_error_count := if truthy (get kv "error") then acc_error_count s + 1
                                else acc_error_count s;
             acc_missing_pubs_key := match assoc kv "publications" with
                                     | None => acc_missing_pubs_key s + 1
                                     | Some _ => acc_missing_pubs_key s
                                     end |}
  end.

Definition verify_publications_file (pub_file : string) : M (list (string * json)) :=
  lines ← read_lines pub_file;
  s ← lift (verify_loop lines
              {| acc_lines := 0; acc_parsed := 0; acc_org_ids := [];
                 acc_error_count := 0; acc_missing_pubs_key := 0 |});
  mret [("lines", JInt (acc_lines s));
        ("parsed", JInt (acc_parsed s));
        ("unique_org_ids",
         JInt (Z.of_nat (size (list_to_set (acc_org_ids s) : gset string))));
        ("error_count", JInt (acc_error_count s));
        ("missing_publications_key", JInt (acc_missing_pubs_key s))].

(** The objects on the lines of a ledger that are not blank. *)
Definition record_of (line : string) : option (list (string * json)) :=
  match json_loads line with
  | Some (JDict kv) => Some kv
  | _ => None
  end.

Definition records_of (lines : list string) : list (list (string * json)) :=
  omap record_of (List.filter not_blank lines).

Definition has_error (kv : list (string * json)) : bool := truthy (get kv "error").

Definition lacks_publications (kv : list (string * json)) : bool :=
  match assoc kv "publications" with None => true | Some _ => false end.

Definition org_id_text (kv : list (string * json)) : option string :=
  match get kv "org_id" with
  | JNull => None
  | oid => Some (py_str oid)
  end.

Definition count {A : Type} (f : A -> bool) (l : list A) : Z :=
  Z.of_nat (length (List.filter f l)).

Lemma count_cons {A : Type} (f : A -> bool) (x : A) (l : list A) :
  count f (x :: l) = (if f x then 1 else 0) + count f l.
Proof using Type.
  forget_env. unfold count. simpl. destruct (f x); simpl; lia.
Qed.

Lemma count_bounds {A : Type} (f : A -> bool) (l : list A) :
  0 <= count f l <= Z.of_nat (length l).
Proof using Type.
  forget_env. unfold count. pose proof (filter_length f l). lia.
Qed.

Lemma records_of_cons_blank (line : string) (lines : list string) :
  blank line = true -> records_of (line :: lines) = records_of lines.
Proof using Type.
  intros Hb. unfold records_of. simpl. unfold not_blank at 1. rewrite Hb. reflexivity.
Qed.

Lemma records_of_cons_record (line : string) (lines : list string)
    (kv : list (string * json)) :
  blank line = false -> json_loads line = Some (JDict kv) ->
  records_of (line :: lines) = kv :: records_of lines.
Proof using Type.
  intros Hb Hj. unfold records_of. simpl. unfold not_blank at 1. rewrite Hb. simpl.
  unfold record_of at 1. rewrite Hj. reflexivity.
Qed.

Lemma records_of_length (lines : list string) :
  all_records lines ->
  length (records_of lines) = length (List.filter not_blank lines).
Proof using Type.
  induction lines as [|line lines IH]; intros Hrec; [reflexivity|].
  assert (Hrec' : all_records lines).
  { intros l Hin. apply Hrec. apply list_elem_of_further. exact Hin. }
  destruct (blank line) eqn:Hb.
  - rewrite records_of_cons_blank by exact Hb. simpl. unfold not_blank at 1.
    rewrite Hb. simpl. auto.
  - destruct (Hrec line (list_elem_of_here _ _) Hb) as (kv & Hj).
    rewrite (records_of_cons_record _ _ kv Hb Hj). simpl. unfold not_blank at 1.
    rewrite Hb. simpl. f_equal. auto.
Qed.

Lemma verify_loop_spec (lines : list string) :
  all_records lines ->
  forall s, exists s',
    verify_loop lines s = Ret s'
    /\ acc_lines s' = acc_lines s + Z.of_nat (length (records_of lines))
    /\ acc_parsed s' = acc_parsed s + Z.of_nat (length (records_of lines))
    /\ acc_org_ids s' = (acc_org_ids s ++ omap org_id_text (records_of lines))%list
    /\ acc_error_count s' = acc_error_count s + count has_error (records_of lines)
    /\ acc_missing_pubs_key s'
       = acc_missing_pubs_key s + count lacks_publications (records_of lines).
Proof using Type.
  induction lines as [|line lines IH]; intros Hrec s.
  - exists s. simpl. unfold count. simpl. rewrite app_nil_r.
    repeat split; try lia.
  - assert (Hrec' : all_records lines).
    { intros l Hin. apply Hrec. apply list_elem_of_further. exact Hin. }
    specialize (IH Hrec'). simpl.
    destruct (blank line) eqn:Hb.
    { rewrite records_of_cons_blank by exact Hb. apply IH. }
    destruct (Hrec line (list_elem_of_here _ _) Hb) as (kv & Hj).
    rewrite (records_of_cons_record _ _ kv Hb Hj).
    unfold loads. rewrite Hj. simpl.
    match goal with |- exists s', verify_loop lines ?s1 = _ /\ _ =>
      destruct (IH s1) as (s' & Hrun & Hl & Hp & Ho & He & Hm) end.
    exists s'. split; [exact Hrun|]. simpl in Hl, Hp, Ho, He, Hm.
    rewrite !count_cons.
    split; [lia|]. split; [lia|]. split.
    { rewrite Ho. unfold org_id_text at 2.
      destruct (get kv "org_id"); simpl; rewrite <- ?app_assoc; reflexivity. }
    split.
    { rewrite He. unfold has_error at 2. destruct (truthy (get kv "error")); lia. }
    rewrite Hm. unfold lacks_publications at 2.
    destruct (assoc kv "publications"); lia.
Qed.


Lemma size_list_to_set_le (l : list string) :
  (size (list_to_set l : gset string) <= length l)%nat.
Proof using Type.
  forget_env. induction l as [|x l IH].
  - rewrite list_to_set_nil, size_empty. simpl. lia.
  - rewrite list_to_set_cons, size_union_alt, size_singleton. simpl.
    pose proof (subseteq_size (list_to_set l ∖ {[x]}) (list_to_set l : gset string)
                  (subseteq_difference_l _ _ _ (reflexivity _))).
    lia.
Qed.

Lemma omap_length_le {A B : Type} (f : A -> option B) (l : list A) :
  (length (omap f l) <= length l)%nat.
Proof using Type.
  forget_env. induction l as [|x l IH]; simpl; [apply Nat.le_refl|].
  destruct (f x); simpl; [apply le_n_S; exact IH|apply Nat.le_le_succ_r; exact IH].
Qed.

(** X9. On a ledger whose lines are JSON objects, the statistics are
    exact and the file is only read: [lines] and [parsed] are the number
    of lines that are not blank, [error_count] counts the objects with a
    truthy [error], [missing_publications_key] those without the key
    [publications], [unique_org_ids] the distinct [str(org_id)] of the
    objects whose [org_id] is not None; none of the last three exceeds
    [lines]. *)
Theorem verify_counts_records (pub_file : string) (w : world) (content : string) :
  files w !! pub_file = Some content ->
  all_records (file_lines content) ->
  let recs := records_of (file_lines content) in
  let n := Z.of_nat (length (List.filter not_blank (file_lines content))) in
  exists stats,
    verify_publications_file pub_file w = (Ret stats, w)
    /\ get stats "lines" = JInt n
    /\ get stats "parsed" = JInt n
    /\ get stats "error_count" = JInt (count has_error recs)
    /\ get stats "missing_publications_key" = JInt (count lacks_publications recs)
    /\ get stats "unique_org_ids"
       = JInt (Z.of_nat (size (list_to_set (omap org_id_text recs) : gset string)))
    /\ 0 <= count has_error recs <= n
    /\ 0 <= count lacks_publications recs <= n
    /\ Z.of_nat (size (list_to_set (omap org_id_text recs) : gset string)) <= n.
Proof using Type.
  intros Hin Hrec recs n.
  unfold verify_publications_file, mbind, M_bind, read_lines, lift. rewrite Hin.
  match goal with |- context [verify_loop _ ?s0] =>
    destruct (verify_loop_spec _ Hrec s0) as (s & Hrun & Hl & Hp & Ho & He & Hm) end.
  rewrite Hrun. simpl in Hl, Hp, Ho, He, Hm.
  assert (Hn : Z.of_nat (length recs) = n).
  { subst recs n. rewrite records_of_length by exact Hrec. reflexivity. }
  eexists. split; [reflexivity|].
  fold recs in Hl, Hp, Ho, He, Hm. rewrite Hl, Hp, Ho, He, Hm, Hn.
  repeat split; try reflexivity.
  - apply count_bounds.
  - rewrite <- Hn. apply count_bounds.
  - apply count_bounds.
  - rewrite <- Hn. apply count_bounds.
  - rewrite <- Hn. apply inj_le.
    etransitivity; [apply size_list_to_set_le|]. apply omap_length_le.
Qed.


Lemma load_error_loop_size (lines : list string) :
  all_records lines ->
  forall out m, load_error_loop lines out = Ret m ->
    Z.of_nat (size m) <= Z.of_nat (size out) + count has_error (records_of lines).
Proof using Type.
  induction lines as [|line lines IH]; intros Hrec out m Hrun.
  - simpl in Hrun. inversion Hrun; subst. unfold count. simpl. lia.
  - assert (Hrec' : all_records lines).
    { intros l Hin. apply Hrec. apply list_elem_of_further. exact Hin. }
    specialize (IH Hrec'). simpl in Hrun.
    destruct (blank line) eqn:Hb.
    { rewrite records_of_cons_blank by exact Hb. apply IH. exact Hrun. }
    destruct (Hrec line (list_elem_of_here _ _) Hb) as (kv & Hj).
    rewrite (records_of_cons_record _ _ kv Hb Hj), count_cons.
    unfold loads in Hrun. rewrite Hj in Hrun. simpl in Hrun.
    unfold has_error at 1.
    destruct (truthy (get kv "error")); simpl in Hrun.
    2:{ apply IH in Hrun. lia. }
    destruct (String.eqb (unit_id_of kv) EmptyString).
    { apply IH in Hrun. lia. }
    apply IH in Hrun.
    pose proof (map_size_insert (unit_id_of kv) kv out) as Hs.
    destruct (out !! unit_id_of kv); unfold id in Hs; lia.
Qed.

(** X11. The statistics and the retry agree: on a ledger of JSON objects
    the number of units [load_error_records] asks a retry for is at most
    the [error_count] that [verify_publications_file] reports for the same
    file, so a file reported with no error record gives the retry nothing
    to do. *)
Theorem error_ids_within_error_count (path : string) (w : world) (content : string) :
  files w !! path = Some content ->
  all_records (file_lines content) ->
  exists m stats k,
    load_error_records path w = (Ret m, w)
    /\ verify_publications_file path w = (Ret stats, w)
    /\ get stats "error_count" = JInt k
    /\ Z.of_nat (size m) <= k
    /\ (k = 0 -> m = ∅).
Proof using Type.
  intros Hin Hrec.
  destruct (load_error_loop_spec _ Hrec ∅) as (m & Hrun & _).
  pose proof (load_error_loop_size _ Hrec ∅ m Hrun) as Hsize.
  rewrite map_size_empty in Hsize.
  exists m.
  unfold load_error_records, verify_publications_file, mbind, M_bind, read_lines, lift.
  rewrite Hin, Hrun.
  match goal with |- context [verify_loop _ ?s0] =>
    destruct (verify_loop_spec _ Hrec s0) as (s & Hv & _ & _ & _ & He & _) end.
  rewrite Hv. simpl in He.
  eexists. exists (count has_error (records_of (file_lines content))).
  split; [reflexivity|]. split; [reflexivity|].
  split; [simpl; rewrite He; reflexivity|].
  split; [lia|].
  intros Hz. apply map_size_empty_iff. lia.
Qed.

(** *** The loop of the orchestrator *)

(** One turn of the [while True] loop, with the state written out. *)
Lemma batch_loop_unfold (fuel : nat) (a : orch_args) (eligible : gset string)
    (batch_num : Z) (w : world) :
  batch_loop (S fuel) a eligible batch_num w =
  match read_done_company_ids (files w) (orch_output a) with
  | Raise e => (Raise e, w)
  | Ret done_ids =>
      let remaining :=
        Z.of_nat (size eligible) - Z.of_nat (size (eligible ∩ done_ids)) in
      if remaining <=? 0 then (Ret true, w)
      else if (0 <? max_batches a) && (max_batches a <? batch_num + 1) then (Ret true, w)
      else
        let batch_limit := Z.min (batch_size a) remaining in
        let w1 := emit (EvSpawn batch_limit)
                    {| files := snd (enrich batch_limit (files w));
                       quota := quota w; log := log w |} in
        if fst (enrich batch_limit (files w)) =? 0 then
          match read_done_company_ids (files w1) (orch_output a) with
          | Raise e => (Raise e, w1)
          | Ret _ => batch_loop fuel a eligible (batch_num + 1) w1
          end
        else (Raise (RuntimeError ("Batch failed with exit code "
                                     +:+ pretty (fst (enrich batch_limit (files w))))), w1)
  end.
Proof using Type.
  cbn [batch_loop]. unfold mbind, M_bind, scan_done at 1.
  destruct (read_done_company_ids (files w) (orch_output a)) as [done_ids|e];
    [|reflexivity].
  cbv zeta.
  destruct (Z.of_nat (size eligible) - Z.of_nat (size (eligible ∩ done_ids)) <=? 0);
    [reflexivity|].
  destruct ((0 <? max_batches a) && (max_batches a <? batch_num + 1)); [reflexivity|].
  unfold run_one_batch.
  destruct (enrich (Z.min (batch_size a)
              (Z.of_nat (size eligible) - Z.of_nat (size (eligible ∩ done_ids))))
              (files w)) as [rc fs].
  cbn [fst snd]. destruct (rc =? 0); [|reflexivity].
  unfold scan_done. cbn [files emit].
  destruct (read_done_company_ids fs (orch_output a)); reflexivity.
Qed.

Definition is_spawn_within (a : orch_args) (eligible : gset string) (ev : event) : Prop :=
  exists batch_limit,
    ev = EvSpawn batch_limit
    /\ batch_limit <= batch_size a
    /\ batch_limit <= Z.of_nat (size eligible)
    /\ (1 <= batch_size a -> 1 <= batch_limit).

Lemma batch_loop_spawns (fuel : nat) (a : orch_args) (eligible : gset string) :
  forall (batch_num : Z) (w : world),
    exists evs,
      log (snd (batch_loop fuel a eligible batch_num w)) = (log w ++ evs)%list
      /\ Forall (is_spawn_within a eligible) evs
      /\ (0 < max_batches a ->
          Z.of_nat (length evs) <= Z.max 0 (max_batches a - batch_num))
      /\ (evs = [] -> snd (batch_loop fuel a eligible batch_num w) = w).
Proof using Type.
  induction fuel as [|fuel IH]; intros batch_num w.
  - exists []. simpl. rewrite app_nil_r. repeat split; auto. intros; lia.
  - rewrite batch_loop_unfold.
    assert (Hnone : exists evs, log w = (log w ++ evs)%list
              /\ Forall (is_spawn_within a eligible) evs
              /\ (0 < max_batches a ->
                  Z.of_nat (length evs) <= Z.max 0 (max_batches a - batch_num))
              /\ (evs = [] -> w = w)).
    { exists []. rewrite app_nil_r. repeat split; auto. simpl. intros; lia. }
    destruct (read_done_company_ids (files w) (orch_output a)) as [done_ids|e];
      [|exact Hnone].
    cbv zeta.
    set (remaining := Z.of_nat (size eligible) - Z.of_nat (size (eligible ∩ done_ids))).
    destruct (remaining <=? 0) eqn:Hrem; [exact Hnone|].
    destruct ((0 <? max_batches a) && (max_batches a <? batch_num + 1)) eqn:Hcap;
      [exact Hnone|].
    apply Z.leb_gt in Hrem.
    set (batch_limit := Z.min (batch_size a) remaining).
    set (w1 := emit (EvSpawn batch_limit)
                 {| files := snd (enrich batch_limit (files w));
                    quota := quota w; log := log w |}).
    assert (Hev : is_spawn_within a eligible (EvSpawn batch_limit)).
    { exists batch_limit. subst batch_limit remaining. repeat split; lia. }
    assert (Hone : 0 < max_batches a ->
                   Z.of_nat (length [EvSpawn batch_limit])
                   <= Z.max 0 (max_batches a - batch_num)).
    { intros Hmax. simpl. apply andb_false_iff in Hcap as [Hc|Hc].
      - apply Z.ltb_ge in Hc. lia.
      - apply Z.ltb_ge in Hc. lia. }
    assert (Hstop : exists evs, log w1 = (log w ++ evs)%list
              /\ Forall (is_spawn_within a eligible) evs
              /\ (0 < max_batches a ->
                  Z.of_nat (length evs) <= Z.max 0 (max_batches a - batch_num))
              /\ (evs = [] -> w1 = w)).
    { exists [EvSpawn batch_limit]. split; [reflexivity|]. split; [auto|].
      split; [exact Hone|]. discriminate. }
    destruct (fst (enrich batch_limit (files w)) =? 0); [|exact Hstop].
    destruct (read_done_company_ids (files w1) (orch_output a)); [|exact Hstop].
    destruct (IH (batch_num + 1) w1) as (evs & Hlog & Hall & Hlen & _).
    exists (EvSpawn batch_limit :: evs). split.
    { rewrite Hlog. subst w1. simpl. rewrite <- app_assoc. reflexivity. }
    split; [constructor; assumption|]. split; [|discriminate].
    intros Hmax. specialize (Hlen Hmax). specialize (Hone Hmax).
    simpl in Hone. simpl length. lia.
Qed.

(** X12. Every batch the orchestrator spawns asks for at most
    [--batch-size] companies and at most as many as are eligible, and for
    at least one when the batch size is positive. With a positive
    [--max-batches] at most that many batches are spawned. A run that
    spawns nothing leaves the files and the log as they were. *)
Theorem batches_are_bounded (fuel : nat) (a : orch_args) (eligible : gset string)
    (w : world) :
  exists evs,
    log (snd (batch_loop fuel a eligible 0 w)) = (log w ++ evs)%list
    /\ Forall (is_spawn_within a eligible) evs
    /\ (0 < max_batches a -> Z.of_nat (length evs) <= max_batches a)
    /\ (evs = [] -> snd (batch_loop fuel a eligible 0 w) = w).
Proof using Type.
  destruct (batch_loop_spawns fuel a eligible 0 w) as (evs & Hlog & Hall & Hlen & Hsame).
  exists evs. repeat split; auto. intros Hmax. specialize (Hlen Hmax). lia.
Qed.

Lemma size_inter_subseteq (eligible done_ids : gset string) :
  eligible ⊆ done_ids -> size (eligible ∩ done_ids) = size eligible.
Proof using Type.
  forget_env. intros Hsub. f_equal. apply set_eq. intros x.
  rewrite elem_of_intersection. split; [tauto|]. intros Hx. split; [exact Hx|].
  apply Hsub. exact Hx.
Qed.

(** X13. Resuming a finished run is free: when every eligible company of
    the shard already has a record in the output, [main] finishes without
    spawning a batch and changes nothing. *)
Theorem finished_run_spawns_nothing
    (fuel : nat) (a : orch_args) (rows : list company_row) (w : world)
    (eligible done_ids : gset string) :
  company_ids_file a = None ->
  load_eligible_company_ids rows (shard_index a) (shard_total a) = Ret eligible ->
  read_done_company_ids (files w) (orch_output a) = Ret done_ids ->
  eligible ⊆ done_ids ->
  orchestrator_main (S fuel) a rows w = (Ret true, w).
Proof using Type.
  intros Hfile Hel Hdone Hsub.
  unfold orchestrator_main. unfold mbind at 1 2 3. unfold M_bind at 1 2 3.
  unfold lift at 1. rewrite Hel, Hfile.
  unfold mret, M_ret. unfold scan_done at 1. rewrite Hdone.
  rewrite batch_loop_unfold, Hdone. cbv zeta.
  rewrite size_inter_subseteq by exact Hsub.
  replace (Z.of_nat (size eligible) - Z.of_nat (size eligible) <=? 0) with true
    by (symmetry; apply Z.leb_le; lia).
  reflexivity.
Qed.

(** X14. The loop ends as long as batches make progress: if every batch
    that exits with code 0 while companies remain adds at least one
    eligible company to the done set, then after more turns than there are
    eligible companies the loop has finished or raised; it never needs
    more. *)
Theorem progress_ends_the_loop (a : orch_args) (eligible : gset string) :
  (forall batch_limit fs d,
     read_done_company_ids fs (orch_output a) = Ret d ->
     (size (eligible ∩ d) < size eligible)%nat ->
     fst (enrich batch_limit fs) = 0 ->
     exists d',
       read_done_company_ids (snd (enrich batch_limit fs)) (orch_output a) = Ret d'
       /\ (size (eligible ∩ d) < size (eligible ∩ d'))%nat) ->
  forall (fuel : nat) (batch_num : Z) (w : world),
    (size eligible < fuel)%nat ->
    fst (batch_loop fuel a eligible batch_num w) <> Ret false.
Proof using Type.
  intros Hprog.
  assert (Hgen : forall (fuel : nat) (batch_num : Z) (w : world),
            (0 < fuel)%nat ->
            (forall d, read_done_company_ids (files w) (orch_output a) = Ret d ->
                       (size eligible - size (eligible ∩ d) < fuel)%nat) ->
            fst (batch_loop fuel a eligible batch_num w) <> Ret false).
  { induction fuel as [|fuel IH]; intros batch_num w Hpos Hfuel; [lia|].
    rewrite batch_loop_unfold.
    destruct (read_done_company_ids (files w) (orch_output a)) as [d|e] eqn:Hd;
      [|discriminate].
    specialize (Hfuel d eq_refl). cbv zeta.
    destruct (Z.of_nat (size eligible) - Z.of_nat (size (eligible ∩ d)) <=? 0) eqn:Hrem;
      [discriminate|].
    apply Z.leb_gt in Hrem.
    destruct ((0 <? max_batches a) && (max_batches a <? batch_num + 1)); [discriminate|].
    set (batch_limit := Z.min (batch_size a)
           (Z.of_nat (size eligible) - Z.of_nat (size (eligible ∩ d)))).
    destruct (fst (enrich batch_limit (files w)) =? 0) eqn:Hrc; [|discriminate].
    apply Z.eqb_eq in Hrc.
    destruct (Hprog batch_limit (files w) d Hd ltac:(lia) Hrc) as (d' & Hd' & Hlt).
    cbn [files emit]. rewrite Hd'.
    pose proof (subseteq_size (eligible ∩ d') eligible
                  (intersection_subseteq_l eligible d')) as Hle.
    apply IH; [lia|].
    cbn [files emit]. intros d'' Hd''. rewrite Hd' in Hd''. inversion Hd''; subst. lia. }
  intros fuel batch_num w Hfuel. apply Hgen; [lia|]. intros d _. lia.
Qed.

(** X15. Nothing stops a batch that exits with code 0 without adding a
    record: while companies remain, with no positive [--max-batches], the
    loop spawns batch after batch and never leaves, however many turns it
    is given. *)
Theorem idle_batches_never_end
    (a : orch_args) (eligible : gset string) (w : world) (d : gset string) :
  read_done_company_ids (files w) (orch_output a) = Ret d ->
  (size (eligible ∩ d) < size eligible)%nat ->
  max_batches a <= 0 ->
  (forall batch_limit, enrich batch_limit (files w) = (0, files w)) ->
  forall (fuel : nat) (batch_num : Z),
    exists w',
      batch_loop fuel a eligible batch_num w = (Ret false, w')
      /\ files w' = files w
      /\ length (log w') = (length (log w) + fuel)%nat.
Proof using Type.
  intros Hd Hrem Hmax Hidle fuel.
  assert (Hgen : forall (batch_num : Z) (w0 : world),
            files w0 = files w ->
            exists w',
              batch_loop fuel a eligible batch_num w0 = (Ret false, w')
              /\ files w' = files w
              /\ length (log w') = (length (log w0) + fuel)%nat).
  { induction fuel as [|fuel IH]; intros batch_num w0 Hfs.
    - exists w0. split; [reflexivity|]. split; [exact Hfs|]. lia.
    - rewrite batch_loop_unfold, Hfs, Hd. cbv zeta.
      replace (Z.of_nat (size eligible) - Z.of_nat (size (eligible ∩ d)) <=? 0)
        with false by (symmetry; apply Z.leb_gt; lia).
      replace (0 <? max_batches a) with false by (symmetry; apply Z.ltb_ge; lia).
      cbn [andb]. rewrite Hidle. cbn [fst snd files emit Z.eqb]. rewrite Hd.
      match goal with |- context [batch_loop fuel a eligible _ ?w1] =>
        destruct (IH (batch_num + 1) w1 eq_refl) as (w' & Hrun & Hfiles & Hlog) end.
      exists w'. split; [exact Hrun|]. split; [exact Hfiles|].
      rewrite Hlog. cbn [log emit]. rewrite length_app. simpl. lia. }
  intros batch_num. apply Hgen. reflexivity.
Qed.

(** *** extract_epo_publications_batch.py: batches and [main] *)

(** [d[k] = v]: the value of a key that is there is replaced where it
    stands, a new key goes last. *)
Fixpoint setitem (kv : list (string * json)) (k : string) (v : json)
    : list (string * json) :=
  match kv with
  | [] => [(k, v)]
  | (k', v') :: kv' =>
      if String.eqb k' k then (k', v) :: kv' else (k', v') :: setitem kv' k v
  end.

(** Lines 164-170 of [extract_batch]: the record written for one entity. *)
Definition entity_result (kv : list (string * json)) (script : list response)
    : run (list (string * json)) :=
  let org_id := py_str (get kv "unique_ID") in
  let name := get kv "name" in
  let role := get kv "role" in
  let r := fetch_publications_for_entity org_id name script in
  let result := setitem (value r) "role" role in
  let result := setitem result "extraction_timestamp" (JStr (utcnow org_id)) in
  {| value := result; sent := sent r; unread := unread r |}.

(** The [for i, entity in enumerate(entities, start=1)] loop; the page is
    the same for the whole batch, so the script goes from one entity to
    the next. The value is [success_count] and the unread script. *)
Fixpoint extract_loop (output_path : string) (entities : list json)
    (script : list response) (success_count : Z) : M (Z * list response) :=
  match entities with
  | [] => mret (success_count, script)
  | entity :: entities' =>
      kv ← lift (as_dict entity);
      let r := entity_result kv script in
      _ ← write output_path (json_dumps (JDict (value r)) +:+ nl);
      extract_loop output_path entities' (unread r)
        (if truthy (get (value r) "error") then success_count else success_count + 1)
  end.

(** [open(output_path, "a" if output_path.exists() else "w")]. *)
Definition open_a_or_w (output_path : string) : M unit := fun w =>
  match files w !! output_path with
  | Some _ => (Ret tt, w)
  | None => open_w output_path w
  end.

Definition extract_batch (entities : list json) (output_path : string)
    (script : list response) : M (Z * list response) :=
  _ ← open_a_or_w output_path;
  extract_loop output_path entities script 0.

Record extract_args : Type := {
  extract_batch_size : Z;      (* --batch-size *)
  roles : string;              (* --roles *)
  extract_output : string      (* the output path, after the default *)
}.

(** [s.split(sep)] for a separator of one character. *)
Fixpoint split_on (sep : ascii) (s : string) : list string :=
  match s with
  | EmptyString => [EmptyString]
  | String c s' =>
      if Ascii.eqb c sep then EmptyString :: split_on sep s'
      else match split_on sep s' with
           | [] => [String c EmptyString]
           | p :: ps => String c p :: ps
           end
  end.

(** [{r.strip() for r in args.roles.split(",") if r.strip()}]. *)
Definition parse_roles (roles : string) : gset string :=
  list_to_set (List.filter (fun r => negb (String.eqb r ""))
                 (map strip (split_on ","%char roles))).

(** [role in roles] for a set of strings: a list or a dictionary cannot
    be hashed. *)
Definition role_in (role : json) (roles : gset string) : res bool :=
  match role with
  | JStr s => Ret (bool_decide (s ∈ roles))
  | JList _ | JDict _ => Raise (TypeError role)
  | _ => Ret false
  end.

(** A list comprehension with a condition that may raise. *)
Fixpoint filter_res {A : Type} (f : A -> res bool) (l : list A) : res (list A) :=
  match l with
  | [] => Ret []
  | x :: l' =>
      b ← f x;
      rest ← filter_res f l';
      Ret (if (b : bool) then x :: rest else rest)
  end.

(** Lines 200-210 of [main]: the entities still to extract. *)
Definition main_remaining (a : extract_args) (entities : list json)
    (fs : gmap string string) : res (list json) :=
  let roles := parse_roles (roles a) in
  all_entities ← filter_res (fun e => kv ← as_dict e; role_in (get kv "role") roles)
                   entities;
  let done_ids := load_done_ids fs (extract_output a) in
  filter_res (fun e => kv ← as_dict e;
                       Ret (negb (bool_decide (py_str (get kv "unique_ID") ∈ done_ids))))
    all_entities.

(** The loop of lines 226-229. The remote side is one script for the
    whole run: a restart of the browser does not show in it. *)
Fixpoint run_batches (output_path : string) (batches : list (list json))
    (script : list response) (total_success : Z) : M (Z * list response) :=
  match batches with
  | [] => mret (total_success, script)
  | batch :: batches' =>
      r ← extract_batch batch output_path script;
      run_batches output_path batches' (snd r) (total_success + fst r)
  end.

(** How [main] ends when no exception of [exn] is raised: everything was
    already extracted (line 220), the batches were run, or [range] refused
    a step of zero (ValueError, line 223). *)
Inductive main_end : Type :=
| AllExtracted
| Extracted (total_success : Z)
| RangeStepZero.

(** [main] from line 200 on; [entities] is what [load_entities] returned. *)
Definition extract_main (a : extract_args) (entities : list json)
    (script : list response) : M main_end := fun w =>
  match main_remaining a entities (files w) with
  | Raise e => (Raise e, w)
  | Ret [] => (Ret AllExtracted, w)
  | Ret remaining =>
      let n := extract_batch_size a in
      if n =? 0 then (Ret RangeStepZero, w)
      else
        let batches := if n <? 0 then [] else chunks remaining (Z.to_nat n) in
        match run_batches (extract_output a) batches script 0 w with
        | (Ret (total_success, _), w') => (Ret (Extracted total_success), w')
        | (Raise e, w') => (Raise e, w')
        end
  end.

(** *** What a batch writes *)

Lemma assoc_app (l l' : list (string * json)) (k : string) :
  assoc (l ++ l') k = match assoc l k with Some v => Some v | None => assoc l' k end.
Proof using Type.
  forget_env. induction l as [|[k' v'] l IH]; [reflexivity|].
  simpl. destruct (String.eqb k' k); [reflexivity|exact IH].
Qed.

Lemma get_app (l l' : list (string * json)) (k : string) :
  get (l ++ l') k = match assoc l k with Some v => v | None => get l' k end.
Proof using Type.
  forget_env. unfold get. rewrite assoc_app. destruct (assoc l k); reflexivity.
Qed.

Lemma setitem_fresh (kv : list (string * json)) (k : string) (v : json) :
  assoc kv k = None -> setitem kv k v = (kv ++ [(k, v)])%list.
Proof using Type.
  forget_env. induction kv as [|[k' v'] kv IH]; intros H; [reflexivity|].
  simpl in *. destruct (String.eqb k' k); [discriminate|]. now rewrite IH.
Qed.

(** The records of [fetch_publications_for_entity] start with the unit
    and its name and have neither [role] nor [extraction_timestamp]. *)
Definition plain_record (org_id : string) (name : json) (r : list (string * json))
    : Prop :=
  exists rest,
    r = ("org_id", JStr org_id) :: ("name", name) :: rest
    /\ assoc rest "role" = None /\ assoc rest "extraction_timestamp" = None.

Lemma page_try_plain (org_id : string) (name : json) (acc : list json)
    (r : response) (record : list (string * json)) :
  page_try org_id name acc r = Ret (StepReturn record) -> plain_record org_id name record.
Proof using Type.
  unfold page_try. destruct (result_dict r) as [result|e]; simpl; [|discriminate].
  destruct (negb (truthy (get result "ok"))); simpl.
  { intros H. inversion H; subst. eexists. split; [reflexivity|]. split; reflexivity. }
  destruct (py_get_default (get_default result "data" (JDict [])) "publications"
              (JList [])) as [pubs|e]; simpl; [|discriminate].
  destruct (py_iter pubs) as [its|e]; simpl; [|discriminate].
  destruct (py_get_default (get_default result "data" (JDict [])) "nextPageToken"
              (JStr "")) as [token|e]; simpl; [|discriminate].
  destruct (negb (truthy token) || negb (truthy pubs)); discriminate.
Qed.

Lemma entity_pages_plain (org_id : string) (name : json) (script : list response) :
  forall (acc : list json) (token : json) (reqs : list request),
    plain_record org_id name (value (entity_pages org_id name acc token script reqs)).
Proof using Type.
  induction script as [|r rest IH]; intros acc token reqs; simpl.
  - eexists. split; [reflexivity|]. split; reflexivity.
  - destruct (page_try org_id name acc r) as [[record|p|p tok]|e] eqn:Hstep; simpl.
    + eapply page_try_plain. exact Hstep.
    + eexists. split; [reflexivity|]. split; reflexivity.
    + apply IH.
    + eexists. split; [reflexivity|]. split; reflexivity.
Qed.

(** The record written for an entity: the fetched record, then [role]
    and [extraction_timestamp]. *)
Lemma entity_result_shape (kv : list (string * json)) (script : list response) :
  let org_id := py_str (get kv "unique_ID") in
  let fetched := value (fetch_publications_for_entity org_id (get kv "name") script) in
  value (entity_result kv script)
  = (fetched ++ [("role", get kv "role");
                 ("extraction_timestamp", JStr (utcnow org_id))])%list
  /\ plain_record org_id (get kv "name") fetched.
Proof using Type.
  intros org_id fetched.
  assert (Hplain : plain_record org_id (get kv "name") fetched).
  { apply entity_pages_plain. }
  split; [|exact Hplain].
  destruct Hplain as (rest & Heq & Hrole & Hts).
  unfold entity_result. cbn [value]. fold org_id. fold fetched.
  rewrite (setitem_fresh fetched "role").
  2:{ rewrite Heq. simpl. exact Hrole. }
  rewrite setitem_fresh.
  2:{ rewrite assoc_app, Heq. simpl. rewrite Hts. reflexivity. }
  rewrite <- app_assoc. reflexivity.
Qed.

Lemma entity_result_fields (kv : list (string * json)) (script : list response) :
  let r := value (entity_result kv script) in
  get r "org_id" = JStr (py_str (get kv "unique_ID"))
  /\ get r "name" = get kv "name"
  /\ get r "role" = get kv "role"
  /\ get r "extraction_timestamp" = JStr (utcnow (py_str (get kv "unique_ID")))
  /\ get r "error"
     = get (value (fetch_publications_for_entity (py_str (get kv "unique_ID"))
                     (get kv "name") script)) "error".
Proof using Type.
  destruct (entity_result_shape kv script) as (Heq & rest & Hf & Hrole & Hts).
  cbv zeta. rewrite Heq. clear Heq.
  generalize dependent (value (fetch_publications_for_entity
                                 (py_str (get kv "unique_ID")) (get kv "name") script)).
  intros fetched ->. rewrite !get_app. simpl. rewrite Hrole, Hts.
  repeat split; try reflexivity.
Qed.

(** *** The output only grows *)

(** [w'] comes from [w] by appending to [p] (creating it if need be). *)
Definition appended_to (p : string) (w w' : world) : Prop :=
  (forall q, q <> p -> files w' !! q = files w !! q)
  /\ (files w' !! p = files w !! p
      \/ exists suffix,
           files w' !! p = Some (default EmptyString (files w !! p) +:+ suffix)).

Lemma appended_refl (p : string) (w : world) : appended_to p w w.
Proof using Type. split; auto. Qed.

Lemma appended_trans (p : string) (w1 w2 w3 : world) :
  appended_to p w1 w2 -> appended_to p w2 w3 -> appended_to p w1 w3.
Proof using Type.
  intros (Ho1 & H1) (Ho2 & H2). split.
  - intros q Hq. rewrite Ho2, Ho1 by exact Hq. reflexivity.
  - destruct H2 as [H2|(s2 & H2)].
    + rewrite H2. exact H1.
    + right. destruct H1 as [H1|(s1 & H1)].
      * exists s2. rewrite H2, H1. reflexivity.
      * exists (s1 +:+ s2). rewrite H2, H1. simpl. rewrite str_app_assoc. reflexivity.
Qed.

Lemma write_appended (p chunk : string) (w : world) :
  appended_to p w (snd (write p chunk w)).
Proof using Type.
  unfold write, spend.
  destruct (quota w) as [[|n]|]; simpl; try apply appended_refl.
  - split; simpl.
    + intros q Hq. apply lookup_insert_ne. auto.
    + right. exists chunk. apply lookup_insert_eq.
  - split; simpl.
    + intros q Hq. apply lookup_insert_ne. auto.
    + right. exists chunk. apply lookup_insert_eq.
Qed.

Lemma open_a_or_w_appended (p : string) (w : world) :
  appended_to p w (snd (open_a_or_w p w))
  /\ fst (open_a_or_w p w) = Ret tt
  /\ is_Some (files (snd (open_a_or_w p w)) !! p).
Proof using Type.
  unfold open_a_or_w, open_w.
  destruct (files w !! p) as [c|] eqn:Hp; simpl.
  - split; [apply appended_refl|]. split; [reflexivity|]. rewrite Hp. eauto.
  - split; [|split; [reflexivity|rewrite lookup_insert_eq; eauto]].
    split; simpl.
    + intros q Hq. apply lookup_insert_ne. auto.
    + right. exists EmptyString. rewrite Hp. apply lookup_insert_eq.
Qed.

Lemma extract_loop_cons (out : string) (kv : list (string * json))
    (entities : list json) (script : list response) (c : Z) (w : world) :
  extract_loop out (JDict kv :: entities) script c w =
  match write out (json_dumps (JDict (value (entity_result kv script))) +:+ nl) w with
  | (Ret _, w1) =>
      extract_loop out entities (unread (entity_result kv script))
        (if truthy (get (value (entity_result kv script)) "error") then c else c + 1) w1
  | (Raise e, w1) => (Raise e, w1)
  end.
Proof using Type. reflexivity. Qed.

Lemma extract_loop_not_dict (out : string) (v : json)
    (entities : list json) (script : list response) (c : Z) (w : world) :
  (forall kv, v <> JDict kv) ->
  extract_loop out (v :: entities) script c w = (Raise (AttributeError v), w).
Proof using Type.
  intros Hv. destruct v; try reflexivity. exfalso. eapply Hv. reflexivity.
Qed.

Lemma extract_loop_appended (out : string) (entities : list json) :
  forall (script : list response) (c : Z) (w : world),
    appended_to out w (snd (extract_loop out entities script c w)).
Proof using Type.
  induction entities as [|e entities IH]; intros script c w.
  - apply appended_refl.
  - destruct e as [| | | | |kv]; try apply appended_refl.
    rewrite extract_loop_cons.
    pose proof (write_appended out
                  (json_dumps (JDict (value (entity_result kv script))) +:+ nl) w) as Hw.
    destruct (write out _ w) as [[[]|e] w1]; simpl in Hw; [|exact Hw].
    eapply appended_trans; [exact Hw|apply IH].
Qed.

Lemma extract_batch_unfold (entities : list json) (out : string)
    (script : list response) (w : world) :
  extract_batch entities out script w
  = extract_loop out entities script 0 (snd (open_a_or_w out w)).
Proof using Type.
  unfold extract_batch, mbind, M_bind.
  pose proof (open_a_or_w_appended out w) as (_ & Hret & _).
  destruct (open_a_or_w out w) as [r w0]. simpl in *. subst r. reflexivity.
Qed.

Lemma extract_batch_appended (entities : list json) (out : string)
    (script : list response) (w : world) :
  appended_to out w (snd (extract_batch entities out script w)).
Proof using Type.
  rewrite extract_batch_unfold.
  eapply appended_trans; [apply open_a_or_w_appended|apply extract_loop_appended].
Qed.

Lemma run_batches_appended (out : string) (batches : list (list json)) :
  forall (script : list response) (total : Z) (w : world),
    appended_to out w (snd (run_batches out batches script total w)).
Proof using Type.
  induction batches as [|b batches IH]; intros script total w.
  - apply appended_refl.
  - cbn [run_batches]. unfold mbind, M_bind.
    pose proof (extract_batch_appended b out script w) as Hb.
    destruct (extract_batch b out script w) as [[r|e] w1]; simpl in Hb; [|exact Hb].
    eapply appended_trans; [exact Hb|apply IH].
Qed.

(** X16. [main] of the batch extractor only ever appends to its output:
    however the run ends (finished, nothing to do, an exception half way
    through a batch), every other file is what it was, and the output is
    either untouched or its old content followed by what was written. No
    record of an earlier run is lost or rewritten. *)
Theorem extraction_only_appends (a : extract_args) (entities : list json)
    (script : list response) (w : world) :
  let w' := snd (extract_main a entities script w) in
  (forall q, q <> extract_output a -> files w' !! q = files w !! q)
  /\ (files w' !! extract_output a = files w !! extract_output a
      \/ exists suffix,
           files w' !! extract_output a
           = Some (default EmptyString (files w !! extract_output a) +:+ suffix)).
Proof using Type.
  cbv zeta. change (appended_to (extract_output a) w
                      (snd (extract_main a entities script w))).
  unfold extract_main.
  destruct (main_remaining a entities (files w)) as [[|r remaining]|e];
    try apply appended_refl.
  destruct (extract_batch_size a =? 0); [apply appended_refl|].
  match goal with |- context [run_batches ?o ?b ?s ?t w] =>
    pose proof (run_batches_appended o b s t w) as Hr;
    destruct (run_batches o b s t w) as [[[n rest]|e] w1] end; exact Hr.
Qed.

(** *** A batch that is not interrupted *)

Definition is_dict (v : json) : Prop := exists kv, v = JDict kv.

(** The records a batch writes when nothing interrupts it, and the script
    it leaves. *)
Fixpoint planned_records (entities : list json) (script : list response)
    : list (list (string * json)) :=
  match entities with
  | JDict kv :: entities' =>
      value (entity_result kv script)
      :: planned_records entities' (unread (entity_result kv script))
  | _ => []
  end.

Fixpoint script_after (entities : list json) (script : list response) : list response :=
  match entities with
  | JDict kv :: entities' => script_after entities' (unread (entity_result kv script))
  | _ => script
  end.

Definition record_line (r : list (string * json)) : string := json_dumps (JDict r) +:+ nl.

Definition succeeded (r : list (string * json)) : bool := negb (truthy (get r "error")).

(** [r] is the record of entity [e]: its unit, name and role, and the
    time of the extraction. *)
Definition written_for (e : json) (r : list (string * json)) : Prop :=
  exists kv,
    e = JDict kv
    /\ get r "org_id" = JStr (py_str (get kv "unique_ID"))
    /\ get r "name" = get kv "name"
    /\ get r "role" = get kv "role"
    /\ get r "extraction_timestamp" = JStr (utcnow (py_str (get kv "unique_ID"))).

Lemma planned_records_for (entities : list json) :
  Forall is_dict entities ->
  forall script, Forall2 written_for entities (planned_records entities script).
Proof using Type.
  induction 1 as [|e entities (kv & ->) _ IH]; intros script; [constructor|].
  simpl. constructor; [|apply IH].
  exists kv. destruct (entity_result_fields kv script) as (H1 & H2 & H3 & H4 & _). auto.
Qed.

Lemma extract_loop_ok (out : string) (entities : list json) :
  Forall is_dict entities ->
  forall (script : list response) (c : Z) (w : world) (old : string),
    quota w = None -> files w !! out = Some old ->
    exists w',
      extract_loop out entities script c w
      = (Ret (c + count succeeded (planned_records entities script),
              script_after entities script), w')
      /\ files w' !! out
         = Some (old +:+ join (map record_line (planned_records entities script)))
      /\ quota w' = None.
Proof using Type.
  induction 1 as [|e entities (kv & ->) _ IH]; intros script c w old Hq Hout.
  - exists w. simpl. unfold count. simpl. rewrite Z.add_0_r, str_app_nil_r. auto.
  - rewrite extract_loop_cons, write_unlimited by exact Hq. rewrite Hout.
    cbn [default]. cbv beta iota. unfold id.
    set (r := entity_result kv script).
    destruct (IH (unread r)
                (if truthy (get (value r) "error") then c else c + 1)
                (emit (EvWrite out (json_dumps (JDict (value r)) +:+ nl))
                   (set_file out (old +:+ (json_dumps (JDict (value r)) +:+ nl)) w))
                (old +:+ (json_dumps (JDict (value r)) +:+ nl)))
      as (w' & Hrun & Hfile & Hq').
    + exact Hq.
    + unfold emit, set_file. simpl. apply lookup_insert_eq.
    + exists w'. cbn [planned_records script_after map]. fold r.
      rewrite count_cons. split; [|split; [|exact Hq']].
      * rewrite Hrun.
        match goal with |- (Ret (?x, _), _) = (Ret (?y, _), _) =>
          replace y with x; [reflexivity|] end.
        unfold succeeded.
        destruct (truthy (get (value r) "error")); cbn [negb]; lia.
      * rewrite Hfile. f_equal.
        change (join (record_line (value r) :: ?l)) with (record_line (value r) +:+ join l).
        rewrite str_app_assoc. reflexivity.
Qed.

(** X17. A batch over JSON objects that no write failure interrupts
    appends exactly one line per entity, in the order of the batch, to
    what the output held (creating the file if it is missing): the line
    of an entity is its record, with [org_id = str(unique_ID)], the
    entity's name and role and the extraction time. The value is the
    number of records without a truthy [error], at most the number of
    entities. *)
Theorem batch_writes_each_entity (entities : list json) (out : string)
    (script : list response) (w : world) :
  Forall is_dict entities ->
  quota w = None ->
  let records := planned_records entities script in
  exists w',
    extract_batch entities out script w
    = (Ret (count succeeded records, script_after entities script), w')
    /\ files w' !! out
       = Some (default EmptyString (files w !! out) +:+ join (map record_line records))
    /\ Forall2 written_for entities records
    /\ 0 <= count succeeded records <= Z.of_nat (length entities).
Proof using Type.
  intros Hdict Hq records.
  pose proof (planned_records_for entities Hdict script) as Hfor. fold records in Hfor.
  rewrite extract_batch_unfold.
  assert (Hopen : exists w0, snd (open_a_or_w out w) = w0 /\ quota w0 = None
            /\ files w0 !! out = Some (default EmptyString (files w !! out))).
  { unfold open_a_or_w, open_w. destruct (files w !! out) as [c|] eqn:Hc; simpl.
    - exists w. auto.
    - eexists. split; [reflexivity|]. split; [exact Hq|]. simpl. apply lookup_insert_eq. }
  destruct Hopen as (w0 & -> & Hq0 & Hout0).
  destruct (extract_loop_ok out entities Hdict script 0 w0 _ Hq0 Hout0)
    as (w' & Hrun & Hfile & _).
  exists w'. fold records in Hrun, Hfile. rewrite Z.add_0_l in Hrun.
  split; [exact Hrun|]. split; [exact Hfile|]. split; [exact Hfor|].
  pose proof (count_bounds succeeded records) as Hb.
  apply Forall2_length in Hfor. rewrite Hfor. exact Hb.
Qed.

(** *** Batches put together *)

Definition shift_count (c : Z) (r : res (Z * list response) * world)
    : res (Z * list response) * world :=
  match r with
  | (Ret (n, s), w) => (Ret (c + n, s), w)
  | (Raise e, w) => (Raise e, w)
  end.

Lemma extract_loop_shift (out : string) (entities : list json) :
  forall (script : list response) (c : Z) (w : world),
    extract_loop out entities script c w
    = shift_count c (extract_loop out entities script 0 w).
Proof using Type.
  induction entities as [|e entities IH]; intros script c w.
  - simpl. unfold mret, M_ret. simpl. rewrite Z.add_0_r. reflexivity.
  - destruct e as [| | | | |kv]; try reflexivity.
    rewrite !extract_loop_cons.
    destruct (write out _ w) as [[[]|e] w1]; [|reflexivity].
    set (r := entity_result kv script).
    rewrite (IH (unread r) (if truthy (get (value r) "error") then c else c + 1) w1).
    rewrite (IH (unread r) (if truthy (get (value r) "error") then 0 else 0 + 1) w1).
    destruct (extract_loop out entities (unread r) 0 w1) as [[[n s]|e] w2];
      [|reflexivity].
    cbn [shift_count].
    match goal with |- (Ret (?x, _), _) = (Ret (?y, _), _) =>
      replace y with x; [reflexivity|] end.
    destruct (truthy (get (value r) "error")); lia.
Qed.

Lemma extract_loop_app (out : string) (es1 es2 : list json) :
  forall (script : list response) (c : Z) (w : world),
    extract_loop out (es1 ++ es2) script c w
    = match extract_loop out es1 script c w with
      | (Ret (c', s'), w') => extract_loop out es2 s' c' w'
      | (Raise e, w') => (Raise e, w')
      end.
Proof using Type.
  induction es1 as [|e es1 IH]; intros script c w; [reflexivity|].
  destruct e as [| | | | |kv]; try reflexivity.
  cbn [app]. rewrite !extract_loop_cons.
  destruct (write out _ w) as [[[]|e] w1]; [|reflexivity].
  apply IH.
Qed.

Lemma appended_is_Some (p : string) (w w' : world) :
  appended_to p w w' -> is_Some (files w !! p) -> is_Some (files w' !! p).
Proof using Type.
  intros (_ & [H|(s & H)]) Hs; rewrite H; eauto.
Qed.

Lemma open_a_or_w_existing (p : string) (w : world) :
  is_Some (files w !! p) -> open_a_or_w p w = (Ret tt, w).
Proof using Type.
  intros [c Hc]. unfold open_a_or_w. rewrite Hc. reflexivity.
Qed.

Lemma run_batches_existing (out : string) (batches : list (list json)) :
  forall (script : list response) (total : Z) (w : world),
    is_Some (files w !! out) ->
    run_batches out batches script total w
    = extract_loop out (concat batches) script total w.
Proof using Type.
  induction batches as [|b batches IH]; intros script total w Hsome; [reflexivity|].
  cbn [run_batches concat]. unfold mbind, M_bind.
  rewrite extract_batch_unfold, open_a_or_w_existing by exact Hsome. cbn [snd].
  rewrite extract_loop_app, (extract_loop_shift out b script total w).
  pose proof (extract_loop_appended out b script 0 w) as Happ.
  destruct (extract_loop out b script 0 w) as [[[n s]|e] w1]; [|reflexivity].
  simpl in Happ. cbn [shift_count fst snd].
  apply IH. eapply appended_is_Some; eassumption.
Qed.

Lemma run_batches_as_one (out : string) (b : list json) (batches : list (list json))
    (script : list response) (w : world) :
  run_batches out (b :: batches) script 0 w
  = extract_batch (concat (b :: batches)) out script w.
Proof using Type.
  cbn [run_batches concat]. unfold mbind, M_bind.
  rewrite !extract_batch_unfold.
  pose proof (open_a_or_w_appended out w) as (_ & _ & Hsome).
  set (w0 := snd (open_a_or_w out w)) in *.
  rewrite extract_loop_app.
  pose proof (extract_loop_appended out b script 0 w0) as Happ.
  destruct (extract_loop out b script 0 w0) as [[[n s]|e] w1]; [|reflexivity].
  simpl in Happ. cbn [fst snd]. rewrite Z.add_0_l.
  apply run_batches_existing. eapply appended_is_Some; eassumption.
Qed.

Lemma chunks_nonempty {A : Type} (x : A) (items : list A) (n : nat) :
  exists b bs, chunks (x :: items) n = b :: bs.
Proof using Type. forget_env. unfold chunks. simpl. eauto. Qed.

(** With a positive batch size [main] is one batch over everything that
    remains. *)
Lemma extract_main_as_one_batch (a : extract_args) (entities : list json)
    (script : list response) (w : world) :
  1 <= extract_batch_size a ->
  extract_main a entities script w
  = match main_remaining a entities (files w) with
    | Raise e => (Raise e, w)
    | Ret [] => (Ret AllExtracted, w)
    | Ret remaining =>
        match extract_batch remaining (extract_output a) script w with
        | (Ret (total_success, _), w') => (Ret (Extracted total_success), w')
        | (Raise e, w') => (Raise e, w')
        end
    end.
Proof using Type.
  intros Hn. unfold extract_main.
  destruct (main_remaining a entities (files w)) as [[|r remaining]|e]; try reflexivity.
  replace (extract_batch_size a =? 0) with false by (symmetry; apply Z.eqb_neq; lia).
  replace (extract_batch_size a <? 0) with false by (symmetry; apply Z.ltb_ge; lia).
  pose proof (chunks_concat (r :: remaining) (Z.to_nat (extract_batch_size a))
                ltac:(lia)) as Hcat.
  destruct (chunks_nonempty r remaining (Z.to_nat (extract_batch_size a)))
    as (b & bs & Hch).
  rewrite Hch in *. rewrite run_batches_as_one, Hcat. reflexivity.
Qed.



(** *** Resuming an extraction *)

(** [json.dumps] puts the record on one line and [json.loads] reads that
    line back. *)
Definition roundtrips (r : list (string * json)) : Prop :=
  has_newline (json_dumps (JDict r)) = false
  /\ json_loads (record_line r) = Some (JDict r).

(** [str(entity.get("unique_ID"))]. *)
Definition entity_id (e : json) : string :=
  match e with
  | JDict kv => py_str (get kv "unique_ID")
  | _ => EmptyString
  end.

Lemma record_lines_terminated (records : list (list (string * json))) :
  Forall roundtrips records -> Forall terminated (map record_line records).
Proof using Type.
  induction 1 as [|r records (Hnl & _) _ IH]; simpl; constructor; [|exact IH].
  exists (json_dumps (JDict r)). split; [exact Hnl|reflexivity].
Qed.

Lemma load_done_after_append (old : string) (records : list (list (string * json))) :
  closed_content old -> Forall roundtrips records ->
  forall x,
    x ∈ load_done_loop (file_lines (old +:+ join (map record_line records))) ∅
    <-> x ∈ load_done_loop (file_lines old) ∅
        \/ exists r, r ∈ records /\ truthy (get r "org_id") = true
                     /\ x = py_str (get r "org_id").
Proof using Type.
  intros Hclosed Hround x.
  rewrite file_lines_app by exact Hclosed.
  rewrite file_lines_join by (apply record_lines_terminated; exact Hround).
  rewrite load_done_loop_app, load_done_loop_union, elem_of_union.
  rewrite (load_done_loop_spec (map record_line records) ∅ x).
  split.
  - intros [H|[H|(line & Hin & kv & Hj & Ht & Hx)]]; [auto|set_solver|].
    right. change (map record_line records) with (record_line <$> records) in Hin.
    apply list_elem_of_fmap in Hin as (r & -> & Hr).
    rewrite Forall_forall in Hround. destruct (Hround r Hr) as (_ & Hj').
    rewrite Hj' in Hj. inversion Hj; subst. eauto.
  - intros [H|(r & Hr & Ht & Hx)]; [auto|].
    right. right. exists (record_line r). split.
    + change (map record_line records) with (record_line <$> records).
      apply list_elem_of_fmap. eauto.
    + rewrite Forall_forall in Hround. destruct (Hround r Hr) as (_ & Hj').
      exists r. auto.
Qed.

Lemma extract_batch_ok (entities : list json) (out : string)
    (script : list response) (w : world) :
  Forall is_dict entities ->
  quota w = None ->
  exists w',
    extract_batch entities out script w
    = (Ret (count succeeded (planned_records entities script),
            script_after entities script), w')
    /\ files w' !! out
       = Some (default EmptyString (files w !! out)
               +:+ join (map record_line (planned_records entities script))).
Proof using Type.
  intros Hdict Hq. rewrite extract_batch_unfold.
  assert (Hopen : exists w0, snd (open_a_or_w out w) = w0 /\ quota w0 = None
            /\ files w0 !! out = Some (default EmptyString (files w !! out))).
  { unfold open_a_or_w, open_w. destruct (files w !! out) as [c|] eqn:Hc; simpl.
    - exists w. auto.
    - eexists. split; [reflexivity|]. split; [exact Hq|]. simpl. apply lookup_insert_eq. }
  destruct Hopen as (w0 & -> & Hq0 & Hout0).
  destruct (extract_loop_ok out entities Hdict script 0 w0 _ Hq0 Hout0)
    as (w' & Hrun & Hfile & _).
  exists w'. rewrite Z.add_0_l in Hrun. auto.
Qed.

Lemma planned_ids (entities : list json) :
  Forall is_dict entities ->
  forall script x,
    (exists r, r ∈ planned_records entities script
               /\ truthy (get r "org_id") = true /\ x = py_str (get r "org_id"))
    <-> (exists e, e ∈ entities /\ entity_id e = x /\ x <> EmptyString).
Proof using Type.
  intros Hdict script x.
  pose proof (planned_records_for entities Hdict script) as Hfor.
  assert (Hid : forall e r, written_for e r ->
            (truthy (get r "org_id") = true /\ x = py_str (get r "org_id"))
            <-> (entity_id e = x /\ x <> EmptyString)).
  { intros e r (kv & -> & Ho & _). rewrite Ho. simpl.
    split.
    - intros [Ht ->]. split; [reflexivity|].
      intros Hx. rewrite Hx in Ht. discriminate.
    - intros [<- Hx]. split; [|reflexivity].
      destruct (String.eqb (py_str (get kv "unique_ID")) EmptyString) eqn:He;
        [apply String.eqb_eq in He; contradiction|reflexivity]. }
  induction Hfor as [|e r es rs Hw _ IH].
  - split; intros (y & Hy & _); inversion Hy.
  - inversion Hdict; subst. specialize (IH ltac:(assumption)).
    split.
    + intros (r' & Hin & Hr'). apply elem_of_cons in Hin as [->|Hin].
      * exists e. split; [apply list_elem_of_here|]. apply (Hid e r Hw). exact Hr'.
      * destruct (proj1 IH (ex_intro _ r' (conj Hin Hr'))) as (e' & He' & Hx).
        exists e'. split; [apply list_elem_of_further; exact He'|exact Hx].
    + intros (e' & Hin & He'). apply elem_of_cons in Hin as [->|Hin].
      * exists r. split; [apply list_elem_of_here|]. apply (Hid e r Hw). exact He'.
      * destruct (proj2 IH (ex_intro _ e' (conj Hin He'))) as (r' & Hr' & Hx).
        exists r'. split; [apply list_elem_of_further; exact Hr'|exact Hx].
Qed.

(** X20. What a batch has written counts as done: after a batch that
    was not interrupted, on an output that was empty or ended with a line
    feed, the done set read back from the output is the old done set
    together with [str(unique_ID)] of every entity of the batch for which
    that text is not empty. An entity whose id text is empty is never
    counted as done. *)
Theorem batch_records_are_done (entities : list json) (out : string)
    (script : list response) (w : world) :
  Forall is_dict entities ->
  quota w = None ->
  closed_content (default EmptyString (files w !! out)) ->
  Forall roundtrips (planned_records entities script) ->
  forall x,
    x ∈ load_done_ids (files (snd (extract_batch entities out script w))) out
    <-> x ∈ load_done_ids (files w) out
        \/ exists e, e ∈ entities /\ entity_id e = x /\ x <> EmptyString.
Proof using Type.
  intros Hdict Hq Hclosed Hround x.
  destruct (extract_batch_ok entities out script w Hdict Hq) as (w' & Hrun & Hfile).
  rewrite Hrun. cbn [snd]. unfold load_done_ids at 1. rewrite Hfile.
  rewrite (load_done_after_append _ _ Hclosed Hround x).
  rewrite (planned_ids entities Hdict script x).
  unfold load_done_ids. destruct (files w !! out); reflexivity.
Qed.

(** *** Running [main] again *)

Lemma filter_res_spec {A : Type} (f : A -> res bool) (l l' : list A) :
  filter_res f l = Ret l' ->
  Forall (fun x => exists b, f x = Ret b) l
  /\ forall x, x ∈ l' <-> x ∈ l /\ f x = Ret true.
Proof using Type.
  forget_env. revert l'. induction l as [|y l IH]; intros l' H; simpl in H.
  - inversion H; subst. split; [constructor|]. intros x. split.
    + intros Hx. inversion Hx.
    + intros [Hx _]. inversion Hx.
  - destruct (f y) as [b|e] eqn:Hy; simpl in H; [|discriminate].
    destruct (filter_res f l) as [rest|e]; simpl in H; [|discriminate].
    destruct (IH rest eq_refl) as (Hall & Hmem).
    inversion H; subst. split; [constructor; eauto|].
    intros x. destruct b.
    + rewrite !elem_of_cons, Hmem. split.
      * intros [->|[Hx Hf]]; auto.
      * intros [[->|Hx] Hf]; auto.
    + rewrite elem_of_cons, Hmem. split.
      * intros [Hx Hf]; auto.
      * intros [[->|Hx] Hf]; [congruence|auto].
Qed.

Lemma filter_res_none {A : Type} (f : A -> res bool) (l : list A) :
  Forall (fun x => f x = Ret false) l -> filter_res f l = Ret [].
Proof using Type.
  forget_env. induction 1 as [|x l Hx _ IH]; [reflexivity|].
  simpl. rewrite Hx, IH. reflexivity.
Qed.

Lemma filter_res_ext {A : Type} (f g : A -> res bool) (l : list A) :
  Forall (fun x => f x = g x) l -> filter_res f l = filter_res g l.
Proof using Type.
  forget_env. induction 1 as [|x l Hx _ IH]; [reflexivity|].
  simpl. rewrite Hx, IH. reflexivity.
Qed.

(** X21. Extraction resumes where it stopped and a finished extraction
    is not repeated: after a run of [main] that was not interrupted
    (positive batch size, an output that was missing, empty or ended with
    a line feed, entities whose id text is not empty, records that
    [json.loads] reads back), a second run over the same entities finds
    nothing left, whatever the remote side would answer, and changes
    nothing. *)
Theorem rerun_extracts_nothing (a : extract_args) (entities : list json)
    (script : list response) (w : world) (remaining : list json) :
  1 <= extract_batch_size a ->
  quota w = None ->
  closed_content (default EmptyString (files w !! extract_output a)) ->
  main_remaining a entities (files w) = Ret remaining ->
  Forall (fun e => entity_id e <> EmptyString) remaining ->
  Forall roundtrips (planned_records remaining script) ->
  exists end1 w1,
    extract_main a entities script w = (Ret end1, w1)
    /\ forall script2, extract_main a entities script2 w1 = (Ret AllExtracted, w1).
Proof using Type.
  intros Hn Hq Hclosed Hrem Hids Hround.
  set (out := extract_output a) in *.
  rewrite extract_main_as_one_batch by exact Hn. rewrite Hrem.
  destruct remaining as [|r0 rest] eqn:Hremaining.
  { exists AllExtracted, w. split; [reflexivity|]. intros script2.
    rewrite extract_main_as_one_batch by exact Hn. rewrite Hrem. reflexivity. }
  rewrite <- Hremaining in *. clear Hremaining r0 rest. fold out.
  unfold main_remaining in Hrem. fold out in Hrem.
  set (f1 := fun e => kv ← as_dict e; role_in (get kv "role") (parse_roles (roles a)))
    in *.
  destruct (filter_res f1 entities) as [all_entities|e] eqn:Hall; simpl in Hrem;
    [|discriminate].
  apply filter_res_spec in Hrem as (Hdicts & Hmem).
  assert (Hdict_all : Forall is_dict all_entities).
  { eapply Forall_impl; [exact Hdicts|]. intros e (b & He).
    destruct e; try discriminate. eexists. reflexivity. }
  assert (Hdict : Forall is_dict remaining).
  { apply Forall_forall. intros e He. apply Hmem in He as [He _].
    rewrite Forall_forall in Hdict_all. auto. }
  pose proof (extract_batch_appended remaining out script w) as Happ.
  destruct (extract_batch_ok remaining out script w Hdict Hq) as (w1 & Hrun & Hfile).
  assert (Hdone : forall x,
            x ∈ load_done_ids (files w1) out
            <-> x ∈ load_done_ids (files w) out
                \/ exists e, e ∈ remaining /\ entity_id e = x /\ x <> EmptyString).
  { intros x. unfold load_done_ids at 1. rewrite Hfile.
    rewrite (load_done_after_append _ _ Hclosed Hround x).
    rewrite (planned_ids remaining Hdict script x).
    unfold load_done_ids. destruct (files w !! out); reflexivity. }
  rewrite Hrun. eexists. exists w1.
  split.
  { destruct remaining; reflexivity. }
  intros script2. rewrite extract_main_as_one_batch by exact Hn.
  unfold main_remaining. fold out. fold f1. rewrite Hall. cbn [mbind res_bind].
  rewrite filter_res_none; [reflexivity|].
  apply Forall_forall. intros e He.
  rewrite Forall_forall in Hdict_all. destruct (Hdict_all e He) as (kv & ->).
  simpl. f_equal.
  apply negb_false_iff, bool_decide_eq_true. apply Hdone.
  destruct (decide (py_str (get kv "unique_ID") ∈ load_done_ids (files w) out))
    as [Hin|Hnin]; [left; exact Hin|].
  right. exists (JDict kv).
  assert (Hkv : JDict kv ∈ remaining).
  { apply Hmem. split; [exact He|]. simpl. f_equal.
    apply negb_true_iff, bool_decide_eq_false. exact Hnin. }
  split; [exact Hkv|]. split; [reflexivity|].
  rewrite Forall_forall in Hids. apply (Hids _ Hkv).
Qed.

(** *** A retry run from the ledger to the patched file *)


Lemma last_error_line_none (lines : list string) (k : string)
    (old : list (string * json)) :
  last_error_line lines k old -> no_error_line lines k -> False.
Proof using Type.
  intros (pre & l & post & -> & Hl & _) Hno.
  apply (Hno l old); [|exact Hl]. apply elem_of_app. right. apply list_elem_of_here.
Qed.



(** *** The ids of --company-ids-file *)






(** *** How the loop of the orchestrator fails *)



End Engine.

(** ** The statements on explicit inputs *)

(** C3 on five companies, four of them with a url, and two shards. *)
Lemma shard_partition_witness :
  1 <= 2
  /\ ⋃ ((fun i => select_shard Sample.char_sum Sample.rows i 2) <$> seqZ 0 2)
     = universe Sample.rows
  /\ select_shard Sample.char_sum Sample.rows 0 2
     ## select_shard Sample.char_sum Sample.rows 1 2.
Proof.
  split; [lia|].
  destruct (shard_partition Sample.char_sum Sample.rows 2) as (_ & _ & Hunion & Hdisj); [lia|].
  split; [exact Hunion|]. apply Hdisj; lia.
Defined.

Example shards_of_sample :
  select_shard Sample.char_sum Sample.rows 0 2 = {[ "b"; "d" ]}
  /\ select_shard Sample.char_sum Sample.rows 1 2 = {[ "a"; "e" ]}.
Proof. split; vm_compute; reflexivity. Qed.

(** C8 as stated fails: with [shard_total = 0] the index 0 satisfies
    [shard_index >= shard_total], and the selection is accepted. *)
Lemma zero_total_is_accepted :
  (0 < 0 \/ 0 >= 0)
  /\ load_eligible_company_ids Sample.char_sum Sample.rows 0 0
     = Ret (universe Sample.rows).
Proof. split; [right; lia|]. vm_compute. reflexivity. Qed.

Lemma invalid_shard_fails_fast_witness :
  exists msg,
    load_eligible_company_ids Sample.char_sum Sample.rows 2 2 = Raise (SystemExit msg)
    /\ orchestrator_main Sample.char_sum Sample.loads Sample.repr Sample.enrich
         3 (Sample.orch 2 2) Sample.rows (Sample.world_of "websites.jsonl" EmptyString)
       = (Raise (SystemExit msg), Sample.world_of "websites.jsonl" EmptyString).
Proof.
  apply (invalid_shard_fails_fast Sample.char_sum Sample.loads Sample.repr Sample.enrich
           3 (Sample.orch 2 2) Sample.rows (Sample.world_of "websites.jsonl" EmptyString)).
  right. vm_compute. discriminate.
Defined.




Example scan_skips_cut_line :
  load_done_ids Sample.loads Sample.repr
    {[ "pubs.jsonl" := Sample.ledger_cut ]} "pubs.jsonl" = {[ "a" ]}
  /\ read_done_company_ids Sample.loads Sample.repr
       {[ "websites.jsonl" := Sample.ledger_web ]} "websites.jsonl" = Ret {[ "k1" ]}.
Proof. split; vm_compute; reflexivity. Qed.


Lemma sample_ledger_records : all_records Sample.loads (file_lines Sample.ledger).
Proof.
  intros line Hin _. apply list_elem_of_In in Hin. vm_compute in Hin.
  destruct Hin as [<-|[<-|[<-|[]]]]; eexists; vm_compute; reflexivity.
Qed.



(** The scenario of the specification: the same three lines in the same
    positions, [b] replaced. *)
Example patch_of_sample_ledger :
  files (snd (rewrite_with_replacements Sample.loads Sample.dumps Sample.repr
                "in.jsonl" "out.jsonl" Sample.patch_b
                (Sample.world_of "in.jsonl" Sample.ledger))) !! "out.jsonl"
  = Some (Sample.line Sample.rec_a
            +:+ Sample.dumps (JDict (default [] (Sample.patch_b !! "b"))) +:+ nl
            +:+ Sample.line Sample.rec_c).
Proof. vm_compute. reflexivity. Qed.


(** Both ways through [write_patched]: the rewrite of a cut ledger raises
    and nothing is renamed; the in-place patch of the sample ledger copies
    the backup and then renames. *)
Example patch_aborts_before_rename :
  let w := Sample.world_of "in.jsonl" Sample.ledger_cut in
  let r := write_patched Sample.loads Sample.dumps Sample.repr
             (Sample.retry "in.jsonl" "out.jsonl" true) "20260106-120000"
             Sample.patch_b w in
  fst r = Raise (JSONDecodeError Sample.cut_line)
  /\ files (snd r) !! "in.jsonl" = Some Sample.ledger_cut
  /\ List.filter is_replace (log (snd r)) = [].
Proof. repeat split; vm_compute; reflexivity. Qed.

Example patch_in_place :
  let w := Sample.world_of "in.jsonl" Sample.ledger in
  let r := write_patched Sample.loads Sample.dumps Sample.repr
             (Sample.retry "in.jsonl" "out.jsonl" true) "20260106-120000"
             Sample.patch_b w in
  fst r = Ret "in.jsonl"
  /\ files (snd r) !! "in.jsonl.bak-20260106-120000" = Some Sample.ledger
  /\ List.filter (fun ev => negb (is_replace ev) && negb (match ev with EvWrite _ _ => true | _ => false end))
       (log (snd r))
     = [EvTruncate "out.jsonl.tmp"; EvCopy "in.jsonl" "in.jsonl.bak-20260106-120000"]
  /\ last (log (snd r)) = Some (EvReplace "out.jsonl.tmp" "in.jsonl").
Proof. repeat split; vm_compute; reflexivity. Qed.




(** A unit that fails twice and then succeeds: the record holds the
    publications of the third attempt only. *)
Example third_attempt_succeeds :
  let script := [Sample.ok_page [JStr "old"] "t1"; Http false 503 JNull;
                 JsError "TypeError: Failed to fetch";
                 Sample.ok_page [JStr "p1"] "t1"; Sample.ok_page [JStr "p2"] EmptyString] in
  let r := retry_unit Sample.repr Sample.exc_text Sample.utcnow 4 "b" [] script in
  get (value r) "publications" = JList [JStr "p1"; JStr "p2"]
  /\ get (value r) "retry_attempts" = JInt 3
  /\ get (value r) "retried" = JBool true
  /\ assoc (value r) "error" = None.
Proof. repeat split; vm_compute; reflexivity. Qed.

(** On the response for which the batch paginator records no text, the
    paginated fetch of the retry patcher names the status. *)
Example retry_names_the_status :
  value (fetch_all_publications Sample.repr Sample.exc_text 1 [Http false 500 (JDict [])])
  = FetchFailed "HTTP 500" (JInt 500) 1.
Proof. vm_compute. reflexivity. Qed.

(** ** Instances of the further properties *)

(** X1 on five items cut by two: [[1;2]; [3;4]; [5]]. *)
Lemma chunks_partition_witness :
  concat (chunks [1; 2; 3; 4; 5] 2) = [1; 2; 3; 4; 5]
  /\ Forall (fun c => (0 < length c <= 2)%nat) (chunks [1; 2; 3; 4; 5] 2)
  /\ forall i c, chunks [1; 2; 3; 4; 5] 2 !! i = Some c ->
       (S i < length (chunks [1; 2; 3; 4; 5] 2))%nat -> length c = 2%nat.
Proof.
  apply (chunks_partition [1; 2; 3; 4; 5] 2). lia.
Defined.




(** ** Further inputs *)

Module Demo.

(** A ledger without error record. *)
Definition ledger_ok : string := Sample.line Sample.rec_a +:+ Sample.line Sample.rec_c.


(** One company with a url; an enricher that always leaves the record of
    [k1] in the output. *)
Definition web_rows : list company_row :=
  [ {| row_id := "k1"; homepage_url := Some "https://k1.example";
       homepage_url_raw := None |} ].

Definition enrich (limit : Z) (fs : gmap string string) : Z * gmap string string :=
  (0, <["websites.jsonl" := Sample.line Sample.rec_k]> fs).


(** Two entities; the remote side answers the first with an empty page
    and the second with an HTTP failure. *)
Definition entity_u1 : json :=
  JDict [("unique_ID", JStr "u1"); ("name", JStr "Acme"); ("role", JStr "company")].
Definition entity_u2 : json :=
  JDict [("unique_ID", JStr "u2"); ("name", JStr "Bolt"); ("role", JStr "company")].
Definition entities : list json := [entity_u1; entity_u2].

Definition script : list response := [Sample.ok_page [] ""; Http false 500 JNull].

Definition extract (n : Z) : extract_args :=
  {| extract_batch_size := n; roles := "company"; extract_output := "pubs.jsonl" |}.

Definition no_files : world := {| files := ∅; quota := None; log := [] |}.

Definition written : list (list (string * json)) :=
  planned_records Sample.repr Sample.exc_text Sample.utcnow entities script.

(** [json.loads] on the lines of [written]. *)
Definition loads (line : string) : option json :=
  Sample.lookup_text (map JDict written) (strip line).

End Demo.

Lemma demo_ledger_records : all_records Sample.loads (file_lines Demo.ledger_ok).
Proof.
  intros line Hin _. apply list_elem_of_In in Hin. vm_compute in Hin.
  destruct Hin as [<-|[<-|[]]]; eexists; vm_compute; reflexivity.
Qed.

Lemma demo_ledger_no_error (k : string) :
  no_error_line Sample.loads Sample.repr (file_lines Demo.ledger_ok) k.
Proof.
  intros l kv Hin (_ & Hj & Ht & _). apply list_elem_of_In in Hin. vm_compute in Hin.
  destruct Hin as [<-|[<-|[]]]; vm_compute in Hj; inversion Hj; subst;
    vm_compute in Ht; discriminate.
Qed.

(** X6 on the ledger [a:ok, c:ok]. *)
Lemma retry_without_errors_is_noop_witness :
  retry_main Sample.loads Sample.dumps Sample.repr Sample.exc_text Sample.utcnow
    (Sample.retry "in.jsonl" "out.jsonl" false) "20260106-000000" (fun _ => [])
    (Sample.world_of "in.jsonl" Demo.ledger_ok)
  = (Ret tt, Sample.world_of "in.jsonl" Demo.ledger_ok).
Proof.
  apply (retry_without_errors_is_noop Sample.loads Sample.dumps Sample.repr
           Sample.exc_text Sample.utcnow
           (Sample.retry "in.jsonl" "out.jsonl" false) "20260106-000000" (fun _ => [])
           (Sample.world_of "in.jsonl" Demo.ledger_ok) Demo.ledger_ok).
  - apply lookup_singleton_eq.
  - exact demo_ledger_records.
  - exact demo_ledger_no_error.
Defined.

(** X7: the input of a run that is not in place. *)
Lemma retry_touches_only_its_files_witness :
  files (snd (retry_main Sample.loads Sample.dumps Sample.repr Sample.exc_text
                Sample.utcnow (Sample.retry "in.jsonl" "out.jsonl" false)
                "20260106-000000" (fun _ => [])
                (Sample.world_of "in.jsonl" Sample.ledger))) !! "in.jsonl"
  = files (Sample.world_of "in.jsonl" Sample.ledger) !! "in.jsonl".
Proof.
  apply (retry_touches_only_its_files Sample.loads Sample.dumps Sample.repr
           Sample.exc_text Sample.utcnow
           (Sample.retry "in.jsonl" "out.jsonl" false) "20260106-000000" (fun _ => [])
           (Sample.world_of "in.jsonl" Sample.ledger) "in.jsonl").
  - vm_compute. discriminate.
  - vm_compute. discriminate.
  - intros H. vm_compute in H. discriminate H.
Defined.

(** X9 on the ledger [a:ok, b:error, c:ok]. *)
Lemma verify_counts_records_witness :
  exists stats,
    verify_publications_file Sample.loads Sample.repr "in.jsonl"
      (Sample.world_of "in.jsonl" Sample.ledger)
    = (Ret stats, Sample.world_of "in.jsonl" Sample.ledger)
    /\ get stats "lines" = JInt 3
    /\ get stats "parsed" = JInt 3
    /\ get stats "error_count" = JInt 1
    /\ get stats "missing_publications_key" = JInt 1
    /\ get stats "unique_org_ids" = JInt 3.
Proof.
  destruct (verify_counts_records Sample.loads Sample.repr "in.jsonl"
              (Sample.world_of "in.jsonl" Sample.ledger) Sample.ledger)
    as (stats & Hrun & Hl & Hp & He & Hm & Hu & _).
  - apply lookup_singleton_eq.
  - exact sample_ledger_records.
  - exists stats. split; [exact Hrun|].
    rewrite Hl, Hp, He, Hm, Hu. repeat split; vm_compute; reflexivity.
Defined.

(** X11 on the same ledger: one unit to retry, one error record. *)
Lemma error_ids_within_error_count_witness :
  exists m stats k,
    load_error_records Sample.loads Sample.repr "in.jsonl"
      (Sample.world_of "in.jsonl" Sample.ledger)
    = (Ret m, Sample.world_of "in.jsonl" Sample.ledger)
    /\ verify_publications_file Sample.loads Sample.repr "in.jsonl"
         (Sample.world_of "in.jsonl" Sample.ledger)
       = (Ret stats, Sample.world_of "in.jsonl" Sample.ledger)
    /\ get stats "error_count" = JInt k
    /\ Z.of_nat (size m) <= k
    /\ (k = 0 -> m = ∅).
Proof.
  apply (error_ids_within_error_count Sample.loads Sample.repr "in.jsonl"
           (Sample.world_of "in.jsonl" Sample.ledger) Sample.ledger).
  - apply lookup_singleton_eq.
  - exact sample_ledger_records.
Defined.

(** X13: the only eligible company already has its record. *)
Lemma finished_run_spawns_nothing_witness :
  orchestrator_main Sample.char_sum Sample.loads Sample.repr Sample.enrich
    1 (Sample.orch 0 1) Demo.web_rows
    (Sample.world_of "websites.jsonl" (Sample.line Sample.rec_k))
  = (Ret true, Sample.world_of "websites.jsonl" (Sample.line Sample.rec_k)).
Proof.
  apply (finished_run_spawns_nothing Sample.char_sum Sample.loads Sample.repr
           Sample.enrich 0 (Sample.orch 0 1) Demo.web_rows
           (Sample.world_of "websites.jsonl" (Sample.line Sample.rec_k))
           {[ "k1" ]} {[ "k1" ]}).
  - reflexivity.
  - vm_compute. reflexivity.
  - vm_compute. reflexivity.
  - reflexivity.
Defined.

(** X14: an enricher that always writes the record of the one eligible
    company; two turns are enough. *)
Lemma progress_ends_the_loop_witness :
  (size ({[ "k1" ]} : gset string) < 2)%nat
  /\ fst (batch_loop Sample.loads Sample.repr Demo.enrich 2 (Sample.orch 0 1)
            {[ "k1" ]} 0 (Sample.world_of "websites.jsonl" EmptyString))
     <> Ret false.
Proof.
  assert (Hsize : (size ({[ "k1" ]} : gset string) < 2)%nat).
  { rewrite size_singleton. lia. }
  split; [exact Hsize|].
  apply (progress_ends_the_loop Sample.loads Sample.repr Demo.enrich
           (Sample.orch 0 1) {[ "k1" ]}).
  - intros batch_limit fs d Hd Hlt _. exists {[ "k1" ]}. split.
    + unfold Demo.enrich, Sample.orch, read_done_company_ids. cbn [snd orch_output].
      rewrite lookup_insert_eq. vm_compute. reflexivity.
    + replace (({[ "k1" ]} : gset string) ∩ {[ "k1" ]}) with ({[ "k1" ]} : gset string)
        by set_solver.
      exact Hlt.
  - exact Hsize.
Defined.

(** X15: the enricher of the samples exits with 0 and writes nothing. *)
Lemma idle_batches_never_end_witness :
  exists w',
    batch_loop Sample.loads Sample.repr Sample.enrich 5 (Sample.orch 0 1)
      {[ "k1" ]} 0 (Sample.world_of "websites.jsonl" EmptyString)
    = (Ret false, w')
    /\ files w' = files (Sample.world_of "websites.jsonl" EmptyString)
    /\ length (log w')
       = (length (log (Sample.world_of "websites.jsonl" EmptyString)) + 5)%nat.
Proof.
  apply (idle_batches_never_end Sample.loads Sample.repr Sample.enrich
           (Sample.orch 0 1) {[ "k1" ]}
           (Sample.world_of "websites.jsonl" EmptyString) ∅).
  - vm_compute. reflexivity.
  - replace (({[ "k1" ]} : gset string) ∩ ∅) with (∅ : gset string) by set_solver.
    rewrite size_empty, size_singleton. lia.
  - simpl. lia.
  - intros batch_limit. reflexivity.
Defined.

Lemma demo_entities_are_dicts : Forall is_dict Demo.entities.
Proof. repeat constructor; eexists; reflexivity. Qed.

Lemma demo_written_roundtrips :
  Forall (roundtrips Demo.loads Sample.dumps)
    (planned_records Sample.repr Sample.exc_text Sample.utcnow Demo.entities Demo.script).
Proof. repeat constructor; vm_compute; reflexivity. Qed.

(** X17 on the two entities and a missing output. *)
Lemma batch_writes_each_entity_witness :
  exists w',
    extract_batch Sample.dumps Sample.repr Sample.exc_text Sample.utcnow
      Demo.entities "pubs.jsonl" Demo.script Demo.no_files
    = (Ret (count succeeded
              (planned_records Sample.repr Sample.exc_text Sample.utcnow
                 Demo.entities Demo.script),
            script_after Sample.repr Sample.exc_text Sample.utcnow
              Demo.entities Demo.script), w')
    /\ files w' !! "pubs.jsonl"
       = Some (default EmptyString (files Demo.no_files !! "pubs.jsonl")
               +:+ join (map (record_line Sample.dumps)
                           (planned_records Sample.repr Sample.exc_text Sample.utcnow
                              Demo.entities Demo.script)))
    /\ Forall2 (written_for Sample.repr Sample.utcnow) Demo.entities
         (planned_records Sample.repr Sample.exc_text Sample.utcnow
            Demo.entities Demo.script)
    /\ 0 <= count succeeded
              (planned_records Sample.repr Sample.exc_text Sample.utcnow
                 Demo.entities Demo.script)
       <= Z.of_nat (length Demo.entities).
Proof.
  apply (batch_writes_each_entity Sample.dumps Sample.repr Sample.exc_text Sample.utcnow
           Demo.entities "pubs.jsonl" Demo.script Demo.no_files).
  - exact demo_entities_are_dicts.
  - reflexivity.
Defined.

(** The numbers of that batch: one success out of two, two lines. *)
Example demo_batch_numbers :
  fst (extract_batch Sample.dumps Sample.repr Sample.exc_text Sample.utcnow
         Demo.entities "pubs.jsonl" Demo.script Demo.no_files)
  = Ret (1, [])
  /\ length (file_lines
               (default EmptyString
                  (files (snd (extract_batch Sample.dumps Sample.repr Sample.exc_text
                                 Sample.utcnow Demo.entities "pubs.jsonl" Demo.script
                                 Demo.no_files)) !! "pubs.jsonl"))) = 2%nat.
Proof. split; vm_compute; reflexivity. Qed.



(** X20 for the unit [u1]. *)
Lemma batch_records_are_done_witness :
  "u1" ∈ load_done_ids Demo.loads Sample.repr
           (files (snd (extract_batch Sample.dumps Sample.repr Sample.exc_text
                          Sample.utcnow Demo.entities "pubs.jsonl" Demo.script
                          Demo.no_files))) "pubs.jsonl"
  <-> "u1" ∈ load_done_ids Demo.loads Sample.repr (files Demo.no_files) "pubs.jsonl"
      \/ exists e, e ∈ Demo.entities /\ entity_id Sample.repr e = "u1"
                   /\ "u1" <> EmptyString.
Proof.
  apply (batch_records_are_done Demo.loads Sample.dumps Sample.repr Sample.exc_text
           Sample.utcnow Demo.entities "pubs.jsonl" Demo.script Demo.no_files).
  - exact demo_entities_are_dicts.
  - reflexivity.
  - constructor.
  - exact demo_written_roundtrips.
Defined.

(** X21: a first run over the two entities, then a second one. *)
Lemma rerun_extracts_nothing_witness :
  exists end1 w1,
    extract_main Demo.loads Sample.dumps Sample.repr Sample.exc_text Sample.utcnow
      (Demo.extract 500) Demo.entities Demo.script Demo.no_files = (Ret end1, w1)
    /\ forall script2,
         extract_main Demo.loads Sample.dumps Sample.repr Sample.exc_text Sample.utcnow
           (Demo.extract 500) Demo.entities script2 w1 = (Ret AllExtracted, w1).
Proof.
  apply (rerun_extracts_nothing Demo.loads Sample.dumps Sample.repr Sample.exc_text
           Sample.utcnow (Demo.extract 500) Demo.entities Demo.script Demo.no_files
           Demo.entities).
  - simpl. lia.
  - reflexivity.
  - constructor.
  - vm_compute. reflexivity.
  - repeat constructor; intros H; vm_compute in H; discriminate H.
  - exact demo_written_roundtrips.
Defined.




(** X23 on a list with spaces and a blank line. *)
Example company_ids_of_sample :
  read_company_ids_file {[ "ids.txt" := " a " +:+ nl +:+ nl +:+ "b" ]} "ids.txt"
  = Ret {[ "a"; "b" ]}.
Proof. vm_compute. reflexivity. Qed.




